(** * juce_native_macos_dialogs: a shallow embedding of the adapter layer

    The module juce_native_macos_dialogs.mm translates JUCE descriptions
    (PopupMenu trees, strings, byte buffers) into AppKit calls.  This file
    embeds the translation functions as Rocq functions over an explicit
    world (the file-scope variable, the allocator, the calls made to AppKit,
    the general pasteboard) and proves the properties stated for them. *)

From Stdlib Require Import ZArith Lia Bool List String Ascii Strings.Byte Wellfounded.
From Stdlib Require Import Floats.PrimFloat Numbers.Cyclic.Int63.Uint63.
From Stdlib Require Import Floats.
From stdpp Require Import base option list strings gmap.
From stdpp Require Import list_numbers pretty.

Local Open Scope Z_scope.

(* ===================================================================== *)
(** ** Machine integers and CGFloat *)
(* ===================================================================== *)

(** C++ [int] is 32 bits wide; [NSInteger] is 64 bits wide on macOS. *)
Definition int_min : Z := - 2 ^ 31.
Definition int_max : Z := 2 ^ 31 - 1.

Definition in_int_range (z : Z) : Prop := int_min <= z <= int_max.

(** The cast [(int) v] of a wider signed value: two's-complement wrap. *)
Definition to_int (z : Z) : Z := (z + 2 ^ 31) mod 2 ^ 32 - 2 ^ 31.

(** [CGFloat] is a binary64 [double]. *)
Abbreviation CGFloat := PrimFloat.float (only parsing).

(** The cast [(CGFloat) n] of a C++ [int]; exact, since |n| < 2^53. *)
Definition CGFloat_of_int (n : Z) : CGFloat :=
  if n <? 0
  then PrimFloat.opp (PrimFloat.of_uint63 (Uint63.of_Z (- n)))
  else PrimFloat.of_uint63 (Uint63.of_Z n).

Record NSPoint := NSMakePoint { pt_x : CGFloat; pt_y : CGFloat }.

(** [juce::Point<int>]. *)
Record JucePoint := mkJucePoint { getX : Z; getY : Z }.

(* ===================================================================== *)
(** ** The JUCE menu model *)
(* ===================================================================== *)

(** [juce::PopupMenu::Item] with the fields the module reads, and
    [juce::PopupMenu] as the ordered sequence its [MenuItemIterator]
    walks (non-recursive iteration: top-level items, first to last). *)
Inductive Item : Type :=
  mkItem {
    text : string;
    itemID : Z;
    isEnabled : bool;
    isTicked : bool;
    isSeparator : bool;
    subMenu : option PopupMenu
  }
with PopupMenu : Type :=
  mkPopupMenu { menuItems : list Item }.

(* ===================================================================== *)
(** ** The AppKit objects the module creates *)
(* ===================================================================== *)

(** An Objective-C object is identified by the address it was allocated at. *)
Definition ObjId := nat.

(** The one selector the module installs: [@selector(menuItemSelected:)]. *)
Inductive Selector := menuItemSelected_sel.

Inductive NSControlStateValue := NSControlStateValueOff | NSControlStateValueOn.

(** The menu font: the system default, or
    [menuFontOfSize: systemFontSizeForControlSize: NSControlSizeSmall]. *)
Inductive MenuFont := DefaultMenuFont | SmallMenuFont.

Inductive NSMenuItem : Type :=
  mkNSMenuItem {
    ns_obj : ObjId;
    ns_isSeparatorItem : bool;
    ns_title : string;
    ns_action : option Selector;
    ns_tag : Z;
    ns_target : option ObjId;
    ns_enabled : bool;
    ns_state : NSControlStateValue;
    ns_submenu : option NSMenu
  }
with NSMenu : Type :=
  mkNSMenu {
    nm_obj : ObjId;
    nm_title : string;
    nm_autoenablesItems : bool;
    nm_font : MenuFont;
    nm_items : list NSMenuItem
  }.

(** [[NSMenuItem separatorItem]]: a blank, disabled item. *)
Definition separatorItem (o : ObjId) : NSMenuItem :=
  mkNSMenuItem o true EmptyString None 0 None false NSControlStateValueOff None.

(** [[[NSMenuItem alloc] initWithTitle: t action: a keyEquivalent: (empty)]]:
    tag 0, no target, enabled, state off, no submenu. *)
Definition initWithTitle (o : ObjId) (t : string) (a : option Selector) : NSMenuItem :=
  mkNSMenuItem o false t a 0 None true NSControlStateValueOff None.

Definition setTag (v : Z) (i : NSMenuItem) : NSMenuItem :=
  mkNSMenuItem (ns_obj i) (ns_isSeparatorItem i) (ns_title i) (ns_action i) v
               (ns_target i) (ns_enabled i) (ns_state i) (ns_submenu i).
Definition setTarget (t : ObjId) (i : NSMenuItem) : NSMenuItem :=
  mkNSMenuItem (ns_obj i) (ns_isSeparatorItem i) (ns_title i) (ns_action i) (ns_tag i)
               (Some t) (ns_enabled i) (ns_state i) (ns_submenu i).
Definition setEnabled (b : bool) (i : NSMenuItem) : NSMenuItem :=
  mkNSMenuItem (ns_obj i) (ns_isSeparatorItem i) (ns_title i) (ns_action i) (ns_tag i)
               (ns_target i) b (ns_state i) (ns_submenu i).
Definition setState (s : NSControlStateValue) (i : NSMenuItem) : NSMenuItem :=
  mkNSMenuItem (ns_obj i) (ns_isSeparatorItem i) (ns_title i) (ns_action i) (ns_tag i)
               (ns_target i) (ns_enabled i) s (ns_submenu i).
Definition setSubmenu (m : NSMenu) (i : NSMenuItem) : NSMenuItem :=
  mkNSMenuItem (ns_obj i) (ns_isSeparatorItem i) (ns_title i) (ns_action i) (ns_tag i)
               (ns_target i) (ns_enabled i) (ns_state i) (Some m).

(** [[[NSMenu alloc] initWithTitle: t]]: items are auto-enabled by default. *)
Definition initMenuWithTitle (o : ObjId) (t : string) : NSMenu :=
  mkNSMenu o t true DefaultMenuFont [].
Definition setAutoenablesItems (b : bool) (m : NSMenu) : NSMenu :=
  mkNSMenu (nm_obj m) (nm_title m) b (nm_font m) (nm_items m).
Definition setFont (f : MenuFont) (m : NSMenu) : NSMenu :=
  mkNSMenu (nm_obj m) (nm_title m) (nm_autoenablesItems m) f (nm_items m).
Definition addItem (i : NSMenuItem) (m : NSMenu) : NSMenu :=
  mkNSMenu (nm_obj m) (nm_title m) (nm_autoenablesItems m) (nm_font m) (nm_items m ++ [i]).

(** An event handed to [popUpContextMenu:withEvent:forView:]: the
    application's current event, or the left-mouse-down the module
    synthesises when there is none. *)
Inductive NSEvent :=
  | appCurrentEvent (serial : nat)
  | leftMouseDownEvent (location : NSPoint) (timestamp : CGFloat).

(** The two display calls of the module ([inView:] is always nil). *)
Inductive AppKitCall :=
  | popUpContextMenu_withEvent_forView (menu : NSMenu) (event : NSEvent) (view : ObjId)
  | popUpMenuPositioningItem_atLocation (menu : NSMenu) (item : option ObjId)
                                        (location : NSPoint).

(* ===================================================================== *)
(** ** The world the popup-menu code runs in *)
(* ===================================================================== *)

(** [gSelectedMenuItemID] is the file-scope [static int]; [nextObj] is the
    next address the Objective-C allocator hands out; [appkitCalls] records
    the display calls made so far, oldest first. *)
Record World := mkWorld {
  gSelectedMenuItemID : Z;
  nextObj : ObjId;
  appkitCalls : list AppKitCall
}.

Definition alloc (w : World) : ObjId * World :=
  (nextObj w, mkWorld (gSelectedMenuItemID w) (S (nextObj w)) (appkitCalls w)).

Definition set_gSelectedMenuItemID (v : Z) (w : World) : World :=
  mkWorld v (nextObj w) (appkitCalls w).

Definition recordCall (c : AppKitCall) (w : World) : World :=
  mkWorld (gSelectedMenuItemID w) (nextObj w) (appkitCalls w ++ [c]).

(** What the user does while a menu is tracked: dismiss it, or release the
    mouse over the item reached by descending through the given indices. *)
Inductive UserAction :=
  | Dismiss
  | Choose (path : list nat).

(** What the module reads from the system during one call. *)
Record Env := mkEnv {
  mainScreenHeight : CGFloat;
  mouseLocation : NSPoint;
  currentEvent : option NSEvent;
  systemUptime : CGFloat;
  userAction : UserAction
}.

(** [juce::Component]: only [getWindowHandle()] is used; it is null while
    the component has no native peer. *)
Record Component := mkComponent { getWindowHandle : option ObjId }.

(** [MenuItemTarget -menuItemSelected:]. *)
Definition menuItemSelected (sender : NSMenuItem) (w : World) : World :=
  set_gSelectedMenuItemID (to_int (ns_tag sender)) w.

(** AppKit menu tracking.  A path reaches an item through enabled items
    carrying submenus; the item reached is activated when it is enabled and
    is neither a separator nor a submenu holder, and AppKit then sends its
    action, if any, to its target. *)
Fixpoint itemAtPath (m : NSMenu) (path : list nat) : option NSMenuItem :=
  match path with
  | [] => None
  | i :: rest =>
      match nm_items m !! i with
      | None => None
      | Some it =>
          match rest with
          | [] => Some it
          | _ :: _ =>
              if ns_enabled it
              then match ns_submenu it with
                   | Some s => itemAtPath s rest
                   | None => None
                   end
              else None
          end
      end
  end.

Definition activatable (it : NSMenuItem) : bool :=
  negb (ns_isSeparatorItem it) && ns_enabled it &&
  match ns_submenu it with Some _ => false | None => true end.

Definition sendAction (it : NSMenuItem) (w : World) : World :=
  match ns_action it, ns_target it with
  | Some menuItemSelected_sel, Some _ => menuItemSelected it w
  | _, _ => w
  end.

Definition trackMenu (m : NSMenu) (u : UserAction) (w : World) : World :=
  match u with
  | Dismiss => w
  | Choose path =>
      match itemAtPath m path with
      | Some it => if activatable it then sendAction it w else w
      | None => w
      end
  end.

Definition popUpContextMenu (m : NSMenu) (ev : NSEvent) (view : ObjId)
    (env : Env) (w : World) : World :=
  trackMenu m (userAction env) (recordCall (popUpContextMenu_withEvent_forView m ev view) w).

Definition popUpMenuPositioningItem (m : NSMenu) (item : option ObjId)
    (location : NSPoint) (env : Env) (w : World) : World :=
  trackMenu m (userAction env) (recordCall (popUpMenuPositioningItem_atLocation m item location) w).

(* ===================================================================== *)
(** ** buildNSMenuFromJuceMenu *)
(* ===================================================================== *)

(** [NSMenuItem** outCheckedItem] is modelled by [option (option ObjId)]:
    [None] is the null pointer; [Some v] points at a caller's variable that
    currently holds [v] ([None] for nil).  The function returns the same
    shape, holding the variable's content on return. *)
Definition OutPtr := option (option ObjId).

Section MenuLoop.
(** The recursive call of line 296, which always passes [nullptr]. *)
Variable buildSubMenu : PopupMenu -> string -> World -> NSMenu * World.
Variable target : ObjId.

(** One pass through the body of the [while (iterator.next())] loop. *)
Definition loopBody (item : Item) (nsMenu : NSMenu) (outCheckedItem : OutPtr)
    (w : World) : NSMenu * OutPtr * World :=
  if isSeparator item then
    let '(o, w) := alloc w in
    (addItem (separatorItem o) nsMenu, outCheckedItem, w)
  else
    match subMenu item with
    | Some sub =>
        let '(subNs, w) := buildSubMenu sub (text item) w in
        let '(o, w) := alloc w in
        let subMenuItem := initWithTitle o (text item) None in
        let subMenuItem := setSubmenu subNs subMenuItem in
        let subMenuItem := setEnabled (isEnabled item) subMenuItem in
        (addItem subMenuItem nsMenu, outCheckedItem, w)
    | None =>
        let '(o, w) := alloc w in
        let nsItem := initWithTitle o (text item) (Some menuItemSelected_sel) in
        let nsItem := setTag (itemID item) nsItem in
        let nsItem := setTarget target nsItem in
        let nsItem := setEnabled (isEnabled item) nsItem in
        let nsItem := setState (if isTicked item then NSControlStateValueOn
                                else NSControlStateValueOff) nsItem in
        let outCheckedItem :=
          match outCheckedItem with
          | Some None => if isTicked item then Some (Some (ns_obj nsItem))
                         else outCheckedItem
          | _ => outCheckedItem
          end in
        (addItem nsItem nsMenu, outCheckedItem, w)
    end.

Definition menuLoop : list Item -> NSMenu -> OutPtr -> World -> NSMenu * OutPtr * World :=
  fix loop (its : list Item) (nsMenu : NSMenu) (outCheckedItem : OutPtr) (w : World) :=
    match its with
    | [] => (nsMenu, outCheckedItem, w)
    | item :: rest =>
        let '(nsMenu, outCheckedItem, w) := loopBody item nsMenu outCheckedItem w in
        loop rest nsMenu outCheckedItem w
    end.
End MenuLoop.

Fixpoint buildNSMenuFromJuceMenu (juceMenu : PopupMenu) (target : ObjId)
    (outCheckedItem : OutPtr) (menuTitle : string) (useSmallSize : bool)
    (w : World) {struct juceMenu} : NSMenu * OutPtr * World :=
  let '(o, w) := alloc w in
  let nsMenu := initMenuWithTitle o menuTitle in
  let nsMenu := setAutoenablesItems false nsMenu in
  let nsMenu := if useSmallSize then setFont SmallMenuFont nsMenu else nsMenu in
  menuLoop
    (fun sub title w =>
       let '(subNs, _, w) :=
         buildNSMenuFromJuceMenu sub target None title useSmallSize w in
       (subNs, w))
    target (menuItems juceMenu) nsMenu outCheckedItem w.

(* ===================================================================== *)
(** ** NativeMacPopupMenu *)
(* ===================================================================== *)

Module NativeMacPopupMenu.

(** The value a caller's [NSMenuItem* checkedItem] holds after the build. *)
Definition deref (p : OutPtr) : option ObjId :=
  match p with Some v => v | None => None end.

Definition showPopupMenu (menu : PopupMenu) (parentComponent : option Component)
    (useSmallSize : bool) (env : Env) (w : World) : Z * World :=
  let w := set_gSelectedMenuItemID 0 w in
  let '(target, w) := alloc w in
  let mouse := mouseLocation env in
  let view := match parentComponent with
              | Some c => getWindowHandle c
              | None => None
              end in
  let '(nsMenu, out, w) :=
    buildNSMenuFromJuceMenu menu target (Some None) EmptyString useSmallSize w in
  let checkedItem := deref out in
  let event := match currentEvent env with
               | Some e => e
               | None => leftMouseDownEvent mouse (systemUptime env)
               end in
  let w := match view with
           | Some v => popUpContextMenu nsMenu event v env w
           | None => popUpMenuPositioningItem nsMenu checkedItem mouse env w
           end in
  let result := gSelectedMenuItemID w in
  (result, w).

Definition showPopupMenuAt (menu : PopupMenu) (screenPosition : JucePoint)
    (useSmallSize : bool) (env : Env) (w : World) : Z * World :=
  let w := set_gSelectedMenuItemID 0 w in
  let '(target, w) := alloc w in
  let '(nsMenu, out, w) :=
    buildNSMenuFromJuceMenu menu target (Some None) EmptyString useSmallSize w in
  let checkedItem := deref out in
  let yPos := PrimFloat.sub (mainScreenHeight env) (CGFloat_of_int (getY screenPosition)) in
  let yPos := match checkedItem with
              | Some _ => PrimFloat.add yPos 10%float
              | None => yPos
              end in
  let nsPosition := NSMakePoint (CGFloat_of_int (getX screenPosition)) yPos in
  let w := popUpMenuPositioningItem nsMenu checkedItem nsPosition env w in
  let result := gSelectedMenuItemID w in
  (result, w).

Definition showPopupMenuAtFixed (menu : PopupMenu) (screenPosition : JucePoint)
    (useSmallSize : bool) (env : Env) (w : World) : Z * World :=
  let w := set_gSelectedMenuItemID 0 w in
  let '(target, w) := alloc w in
  let '(nsMenu, _, w) :=
    buildNSMenuFromJuceMenu menu target None EmptyString useSmallSize w in
  let yPos := PrimFloat.sub (mainScreenHeight env) (CGFloat_of_int (getY screenPosition)) in
  let nsPosition := NSMakePoint (CGFloat_of_int (getX screenPosition)) yPos in
  let w := popUpMenuPositioningItem nsMenu None nsPosition env w in
  let result := gSelectedMenuItemID w in
  (result, w).

End NativeMacPopupMenu.

(* ===================================================================== *)
(** ** NativeMacPasteboard *)
(* ===================================================================== *)

Module NativeMacPasteboard.

(** The general pasteboard: the types declared by the last
    [declareTypes:owner:] and the data stored for them. *)
Record NSPasteboard := mkPasteboard {
  pb_types : list string;
  pb_data : gmap string (list byte)
}.

(** [declareTypes:owner:] clears the pasteboard and declares the new types. *)
Definition declareTypes (types : list string) (pb : NSPasteboard) : NSPasteboard :=
  mkPasteboard types ∅.

(** [setData:forType:] stores data for a type that has been declared. *)
Definition setData (d : list byte) (t : string) (pb : NSPasteboard) : NSPasteboard :=
  if bool_decide (t ∈ pb_types pb)
  then mkPasteboard (pb_types pb) (<[t := d]> (pb_data pb))
  else pb.

(** [dataForType:]: the stored data, or nil. *)
Definition dataForType (t : string) (pb : NSPasteboard) : option (list byte) :=
  pb_data pb !! t.

(** [juce::MemoryBlock] and its [replaceAll (src, numBytes)]. *)
Definition MemoryBlock := list byte.
Definition replaceAll (src : list byte) (block : MemoryBlock) : MemoryBlock := src.

(** [data] is the memory readable at the pointer; [dataWithBytes:length:]
    copies its first [size] bytes. *)
Definition copyDataToClipboard (data : list byte) (size : nat) (typeUTI : string)
    (pb : NSPasteboard) : NSPasteboard :=
  let dataToCopy := take size data in
  let pasteboardType := typeUTI in
  let pb := declareTypes [pasteboardType] pb in
  setData dataToCopy pasteboardType pb.

Definition fetchDataFromClipboard (memoryBlock : MemoryBlock) (typeUTI : string)
    (pb : NSPasteboard) : bool * MemoryBlock :=
  let pasteboardType := typeUTI in
  match dataForType pasteboardType pb with
  | Some data => (true, replaceAll data memoryBlock)
  | None => (false, memoryBlock)
  end.

End NativeMacPasteboard.

(* ===================================================================== *)
(** ** NativeMacDialogs *)
(* ===================================================================== *)

Module NativeMacDialogs.

(** [NSAlert -runModal] answers [NSAlertFirstButtonReturn] (1000) for the
    first button added, 1001 for the second. *)
Definition NSAlertFirstButtonReturn : Z := 1000.
Definition NSAlertSecondButtonReturn : Z := 1001.

(** An [NSString] is a sequence of UTF-16 code units: [-length] counts
    them and [-substringToIndex:] cuts between them. *)
Definition NSString := list Z.

(** What happens while the alert is modal: the user edits the field any
    number of times (each edit leaves the field holding the given text and
    posts NSControlTextDidChangeNotification), then ends the dialog. *)
Record ModalSession := mkSession {
  edits : list NSString;
  response : Z
}.

(** The block of lines 58-65: [[text length]] and [substringToIndex:]. *)
Definition limitObserver (maxLength : Z) (fieldText : NSString) : NSString :=
  if Z.of_nat (length fieldText) >? maxLength
  then take (Z.to_nat maxLength) fieldText
  else fieldText.

(** A user edit: the field takes the text, then the observers of the
    notification run. *)
Definition userEdit (observer : option (NSString -> NSString))
    (field newText : NSString) : NSString :=
  match observer with
  | Some block => block newText
  | None => newText
  end.

Definition runModal (observer : option (NSString -> NSString)) (field : NSString)
    (s : ModalSession) : Z * NSString :=
  (response s, fold_left (userEdit observer) (edits s) field).

Section TextConversion.
(** The two conversions between a [juce::String] and an [NSString], both
    library code: [[NSString stringWithUTF8String: s.toRawUTF8()]] and
    [juce::String::fromUTF8 ([t UTF8String])]. *)
Variable toNSString : string -> NSString.
Variable toJuceString : NSString -> string.

(** Returns the result and the content of [outText] on return. *)
Definition showTextInputDialog (title message currentText : string) (maxLength : Z)
    (okButtonText cancelButtonText : string) (outText : string)
    (s : ModalSession) : bool * string :=
  let input := toNSString currentText in
  let observer := if maxLength >? 0 then Some (limitObserver maxLength) else None in
  let '(result, input) := runModal observer input s in
  if result =? NSAlertFirstButtonReturn
  then (true, toJuceString input)
  else (false, outText).
End TextConversion.

End NativeMacDialogs.

(* ===================================================================== *)
(** ** Specification-side definitions *)
(* ===================================================================== *)

(** The correspondence between a JUCE menu and a native menu as the
    specification words it, its three cases read in the order written:
    a separator; otherwise an item with a submenu; otherwise a plain item. *)
Inductive item_corresponds : Item -> NSMenuItem -> Prop :=
  | corresponds_separator it ns :
      isSeparator it = true ->
      ns_isSeparatorItem ns = true ->
      item_corresponds it ns
  | corresponds_submenu it ns sub nsub :
      isSeparator it = false ->
      subMenu it = Some sub ->
      ns_isSeparatorItem ns = false ->
      ns_submenu ns = Some nsub ->
      menu_corresponds sub nsub ->
      ns_title ns = text it ->
      ns_enabled ns = isEnabled it ->
      item_corresponds it ns
  | corresponds_plain it ns :
      isSeparator it = false ->
      subMenu it = None ->
      ns_isSeparatorItem ns = false ->
      ns_submenu ns = None ->
      ns_title ns = text it ->
      ns_tag ns = itemID it ->
      ns_enabled ns = isEnabled it ->
      (ns_state ns = NSControlStateValueOn <-> isTicked it = true) ->
      item_corresponds it ns
with menu_corresponds : PopupMenu -> NSMenu -> Prop :=
  | corresponds_menu m nm :
      Forall2 item_corresponds (menuItems m) (nm_items nm) ->
      menu_corresponds m nm.

(** A top-level item that can be recorded as the checked item: ticked,
    not a separator, without a submenu. *)
Definition tickedPlain (it : Item) : bool :=
  negb (isSeparator it) &&
  match subMenu it with Some _ => false | None => true end &&
  isTicked it.

(** The item of the JUCE menu a user path leads to, descending as the
    native tracking does: through enabled, non-separator submenu items. *)
Fixpoint juceItemAtPath (m : PopupMenu) (path : list nat) : option Item :=
  match path with
  | [] => None
  | i :: rest =>
      match menuItems m !! i with
      | None => None
      | Some it =>
          match rest with
          | [] => Some it
          | _ :: _ =>
              if isSeparator it then None
              else if isEnabled it
              then match subMenu it with
                   | Some s => juceItemAtPath s rest
                   | None => None
                   end
              else None
          end
      end
  end.

(** An item the user can select: enabled, not a separator, no submenu. *)
Definition selectable (it : Item) : bool :=
  negb (isSeparator it) && isEnabled it &&
  match subMenu it with Some _ => false | None => true end.

(** Every object address of a native menu's items, at any depth, and those
    strictly inside its submenus. *)
Fixpoint allItemObjs (m : NSMenu) : list ObjId :=
  flat_map
    (fun it => ns_obj it :: match ns_submenu it with
                            | Some s => allItemObjs s
                            | None => []
                            end)
    (nm_items m).

Definition nestedObjsOfItem (it : NSMenuItem) : list ObjId :=
  match ns_submenu it with
  | Some s => allItemObjs s
  | None => []
  end.

Definition topLevelObjs (m : NSMenu) : list ObjId := map ns_obj (nm_items m).

Definition submenuObjs (m : NSMenu) : list ObjId :=
  flat_map nestedObjsOfItem (nm_items m).

(** The positioning item of a display call belongs to the menu displayed,
    and to none of its submenus. *)
Definition positioningItemIsTopLevel (c : AppKitCall) : Prop :=
  match c with
  | popUpMenuPositioningItem_atLocation m (Some o) _ =>
      o ∈ topLevelObjs m /\ o ∉ submenuObjs m
  | _ => True
  end.

(** Size measures of a menu tree: its nesting depth, and the number of
    Objective-C objects its conversion allocates (one per menu converted,
    one per item; the submenu of a separator is never converted). *)
Fixpoint menuDepth (m : PopupMenu) : nat :=
  S (list_max
       (map (fun it => match subMenu it with
                       | Some s => menuDepth s
                       | None => O
                       end)
            (menuItems m))).

Fixpoint menuObjects (m : PopupMenu) : nat :=
  S (list_sum
       (map (fun it => S (if isSeparator it then O
                          else match subMenu it with
                               | Some s => menuObjects s
                               | None => O
                               end))
            (menuItems m))).

(** [s] is the submenu of one of the items of [m]. *)
Definition isSubMenuOf (s m : PopupMenu) : Prop :=
  exists it, it ∈ menuItems m /\ subMenu it = Some s.

(** The body of [buildNSMenuFromJuceMenu] with the recursive call abstracted. *)
Definition buildStep
    (self : PopupMenu -> ObjId -> OutPtr -> string -> bool -> World -> NSMenu * OutPtr * World)
    (juceMenu : PopupMenu) (target : ObjId) (outCheckedItem : OutPtr)
    (menuTitle : string) (useSmallSize : bool) (w : World) : NSMenu * OutPtr * World :=
  let '(o, w) := alloc w in
  let nsMenu := initMenuWithTitle o menuTitle in
  let nsMenu := setAutoenablesItems false nsMenu in
  let nsMenu := if useSmallSize then setFont SmallMenuFont nsMenu else nsMenu in
  menuLoop
    (fun sub title w =>
       let '(subNs, _, w) := self sub target None title useSmallSize w in
       (subNs, w))
    target (menuItems juceMenu) nsMenu outCheckedItem w.

(* ===================================================================== *)
(** ** Definitions used in the proofs *)
(* ===================================================================== *)

(** What one pass of the loop appends for a JUCE item, up to the address
    of the new object and the world the submenu was built in. *)
Definition itemImage (buildSubMenu : PopupMenu -> string -> World -> NSMenu * World)
    (target : ObjId) (it : Item) (ns : NSMenuItem) : Prop :=
  if isSeparator it then ns = separatorItem (ns_obj ns)
  else match subMenu it with
       | Some sub =>
           exists w0,
             ns = mkNSMenuItem (ns_obj ns) false (text it) None 0 None (isEnabled it)
                    NSControlStateValueOff (Some (buildSubMenu sub (text it) w0).1)
       | None =>
           ns = mkNSMenuItem (ns_obj ns) false (text it) (Some menuItemSelected_sel)
                  (itemID it) (Some target) (isEnabled it)
                  (if isTicked it then NSControlStateValueOn
                   else NSControlStateValueOff) None
       end.

(** The recursive call as the loop sees it. *)
Definition subBuilder (target : ObjId) (useSmallSize : bool)
    : PopupMenu -> string -> World -> NSMenu * World :=
  fun sub title w =>
    let '(subNs, _, w) :=
      buildNSMenuFromJuceMenu sub target None title useSmallSize w in
    (subNs, w).

(** Objects allocated by one pass of the loop. *)
Definition itemObjects (it : Item) : nat :=
  S (if isSeparator it then O
     else match subMenu it with
          | Some s => menuObjects s
          | None => O
          end).

Definition advance (n : nat) (w : World) : World :=
  mkWorld (gSelectedMenuItemID w) (nextObj w + n)%nat (appkitCalls w).

(** The caller's variable after one pass of the loop (lines 321-324), after
    the whole loop, and the object a null variable ends up holding. *)
Definition outStep (it : Item) (ns : NSMenuItem) (out : OutPtr) : OutPtr :=
  match out with
  | Some None => if tickedPlain it then Some (Some (ns_obj ns)) else Some None
  | _ => out
  end.

Fixpoint outAfter (its : list Item) (new : list NSMenuItem) (out : OutPtr) : OutPtr :=
  match its, new with
  | it :: its', ns :: new' => outAfter its' new' (outStep it ns out)
  | _, _ => out
  end.

Fixpoint firstTickedObj (its : list Item) (new : list NSMenuItem) : option ObjId :=
  match its, new with
  | it :: its', ns :: new' =>
      if tickedPlain it then Some (ns_obj ns) else firstTickedObj its' new'
  | _, _ => None
  end.

Definition objsOf (l : list NSMenuItem) : list ObjId :=
  flat_map (fun it => ns_obj it :: nestedObjsOfItem it) l.

(** What the loop lemma needs of the recursive call on the submenu of [it]. *)
Definition subBuilderOk (bs : PopupMenu -> string -> World -> NSMenu * World)
    (it : Item) : Prop :=
  forall sub, subMenu it = Some sub ->
  forall title w,
    (bs sub title w).2 = advance (menuObjects sub) w /\
    (forall o, o ∈ allItemObjs (bs sub title w).1 ->
               (nextObj w <= o < nextObj w + menuObjects sub)%nat) /\
    NoDup (allItemObjs (bs sub title w).1).

(** The item the user selected, if any: nothing when the menu is dismissed
    or when the path ends on no item or on one that cannot be selected. *)
Definition userSelection (menu : PopupMenu) (u : UserAction) : option Item :=
  match u with
  | Dismiss => None
  | Choose path =>
      match juceItemAtPath menu path with
      | Some it => if selectable it then Some it else None
      | None => None
      end
  end.

(** The value the code hands back for a user action: the selected item's
    tag cast to [int], or the 0 the variable was reset to. *)
Definition selectionResult (menu : PopupMenu) (u : UserAction) : Z :=
  match userSelection menu u with
  | Some it => to_int (itemID it)
  | None => 0
  end.

(** The [n]-fold unrolling of the body over an arbitrary function [bot]
    standing for calls nested more than [n] deep. *)
Fixpoint unrollBuild
    (bot : PopupMenu -> ObjId -> OutPtr -> string -> bool -> World -> NSMenu * OutPtr * World)
    (n : nat)
    : PopupMenu -> ObjId -> OutPtr -> string -> bool -> World -> NSMenu * OutPtr * World :=
  match n with
  | O => bot
  | S n' => buildStep (unrollBuild bot n')
  end.

(** A callee that ignores the out-pointer it is handed and receives null. *)
Definition withNullOut
    (self : PopupMenu -> ObjId -> OutPtr -> string -> bool -> World -> NSMenu * OutPtr * World)
    : PopupMenu -> ObjId -> OutPtr -> string -> bool -> World -> NSMenu * OutPtr * World :=
  fun sub target _ title small w => self sub target None title small w.

(** The build an entry point performs in world [w]: the variable has been
    reset and the target allocated at the next free address. *)
Definition builtFor (menu : PopupMenu) (small : bool) (w : World) (out : OutPtr)
    : NSMenu * OutPtr * World :=
  buildNSMenuFromJuceMenu menu (nextObj w) out EmptyString small
    (advance 1 (set_gSelectedMenuItemID 0 w)).

(* ===================================================================== *)
(** ** Sample data, after the hierarchical menu of examples.cpp *)
(* ===================================================================== *)

Definition plainItem (id : Z) (t : string) (enabled ticked : bool) : Item :=
  mkItem t id enabled ticked false None.
Definition separator : Item := mkItem EmptyString 0 true false true None.
Definition subMenuItem (t : string) (sub : PopupMenu) : Item :=
  mkItem t 0 true false false (Some sub).

Definition sampleFileMenu : PopupMenu :=
  mkPopupMenu [plainItem 101 "New" true false; plainItem 102 "Open" true true].

Definition sampleMenu : PopupMenu :=
  mkPopupMenu [subMenuItem "File" sampleFileMenu;
               separator;
               plainItem 201 "Preset 1" true false;
               plainItem 202 "Preset 2" true true;
               plainItem 203 "Preset 3" false true].

Definition sampleWorld : World := mkWorld 77 1000%nat [].

Definition sampleEnv (u : UserAction) : Env :=
  mkEnv 1080%float (NSMakePoint 400%float 300%float) None 12.5%float u.

Definition sampleBytes : list byte := [x01; x00; xff; x7f; x80].
Definition sampleUTI : string := "com.yourcompany.yourapp.datatype".
Definition emptyPasteboard : NativeMacPasteboard.NSPasteboard :=
  NativeMacPasteboard.mkPasteboard [] ∅.

(* ===================================================================== *)
(** ** The alerts of NativeMacDialogs *)
(* ===================================================================== *)

Inductive NSAlertStyle :=
  | NSAlertStyleWarning
  | NSAlertStyleInformational
  | NSAlertStyleCritical.

Record NSAlert := mkNSAlert {
  alert_messageText : string;
  alert_informativeText : string;
  alert_style : NSAlertStyle;
  alert_buttons : list string
}.

(** [[[NSAlert alloc] init]]: warning style, no text, no button. *)
Definition initAlert : NSAlert :=
  mkNSAlert EmptyString EmptyString NSAlertStyleWarning [].
Definition setMessageText (t : string) (a : NSAlert) : NSAlert :=
  mkNSAlert t (alert_informativeText a) (alert_style a) (alert_buttons a).
Definition setInformativeText (t : string) (a : NSAlert) : NSAlert :=
  mkNSAlert (alert_messageText a) t (alert_style a) (alert_buttons a).
Definition setAlertStyle (st : NSAlertStyle) (a : NSAlert) : NSAlert :=
  mkNSAlert (alert_messageText a) (alert_informativeText a) st (alert_buttons a).
Definition addButtonWithTitle (t : string) (a : NSAlert) : NSAlert :=
  mkNSAlert (alert_messageText a) (alert_informativeText a) (alert_style a)
            (alert_buttons a ++ [t]).

(** A block handed to the main queue: bring a window to the front, after
    the given delay in nanoseconds. *)
Inductive MainQueueBlock :=
  | makeKeyAndOrderFront (window : ObjId) (delayNanos : Z).

(** What an alert call reads from the application: the key window before
    the alert, which windows are visible once it is over, and the index of
    the button the user ends the alert with. *)
Record DialogEnv := mkDialogEnv {
  keyWindow : option ObjId;
  isVisible : ObjId -> bool;
  clickedButton : nat
}.

(** [-runModal]: [NSAlertFirstButtonReturn] for the first button added,
    one more for each further button. *)
Definition runAlertModal (a : NSAlert) (env : DialogEnv) : Z :=
  NativeMacDialogs.NSAlertFirstButtonReturn + Z.of_nat (clickedButton env).

(** The focus restoration each dialog function ends with: the window is
    brought to the front at once and again 0.05 s later (the second block
    is queued by the first). *)
Definition restoreFocus (originalWindow : option ObjId) (env : DialogEnv)
    : list MainQueueBlock :=
  match originalWindow with
  | Some win =>
      if isVisible env win
      then [makeKeyAndOrderFront win 0; makeKeyAndOrderFront win 50000000]
      else []
  | None => []
  end.

(** Returns the alert shown and the blocks queued. *)
Definition showInfoDialog (title message buttonText : string) (env : DialogEnv)
    : NSAlert * list MainQueueBlock :=
  let alert := initAlert in
  let alert := setMessageText title alert in
  let alert := setInformativeText message alert in
  let alert := setAlertStyle NSAlertStyleInformational alert in
  let alert := addButtonWithTitle buttonText alert in
  let originalWindow := keyWindow env in
  let _ := runAlertModal alert env in
  (alert, restoreFocus originalWindow env).

Definition showConfirmDialog (title message button1Text button2Text : string)
    (env : DialogEnv) : bool * NSAlert * list MainQueueBlock :=
  let alert := initAlert in
  let alert := setMessageText title alert in
  let alert := setInformativeText message alert in
  let alert := setAlertStyle NSAlertStyleWarning alert in
  let alert := addButtonWithTitle button1Text alert in
  let alert := addButtonWithTitle button2Text alert in
  let originalWindow := keyWindow env in
  let result := runAlertModal alert env in
  (result =? NativeMacDialogs.NSAlertFirstButtonReturn, alert,
   restoreFocus originalWindow env).

(* ===================================================================== *)
(** ** clipboardContainsDataType and the clipboard examples *)
(* ===================================================================== *)

Section Conformance.
(** Uniform-type conformance, as the system's type database decides it. *)
Variable conformsTo : string -> string -> bool.

(** [canReadItemWithDataConformingToTypes:]: some type the pasteboard holds
    data for conforms to one of the requested types. *)
Definition canReadItemWithDataConformingToTypes (types : list string)
    (pb : NativeMacPasteboard.NSPasteboard) : bool :=
  existsb (fun held => existsb (conformsTo held.1) types)
          (map_to_list (NativeMacPasteboard.pb_data pb)).

Definition clipboardContainsDataType (typeUTI : string)
    (pb : NativeMacPasteboard.NSPasteboard) : bool :=
  let pasteboardType := typeUTI in
  canReadItemWithDataConformingToTypes [pasteboardType] pb.

(** examples.cpp, example 7. *)
Inductive PasteOutcome :=
  | PresetRetrieved (presetData : NativeMacPasteboard.MemoryBlock)
  | NothingRetrieved
  | PasteErrorShown (alert : NSAlert) (queued : list MainQueueBlock).

Definition examplePastePresetFromClipboard (pb : NativeMacPasteboard.NSPasteboard)
    (env : DialogEnv) : PasteOutcome :=
  let customUTI := "com.yourcompany.yourapp.preset"%string in
  if clipboardContainsDataType customUTI pb then
    let presetData : NativeMacPasteboard.MemoryBlock := [] in
    let '(ok, presetData) :=
      NativeMacPasteboard.fetchDataFromClipboard presetData customUTI pb in
    if ok then PresetRetrieved presetData else NothingRetrieved
  else
    let '(alert, queued) :=
      showInfoDialog "Paste Error" "No preset data found on clipboard." "OK" env in
    PasteErrorShown alert queued.
End Conformance.

(** examples.cpp, example 6: the function declares an empty MemoryBlock
    and copies it as it is ([getData()], [getSize()] of the empty block). *)
Definition exampleCopyPresetToClipboard (pb : NativeMacPasteboard.NSPasteboard)
    : NativeMacPasteboard.NSPasteboard :=
  let presetData : NativeMacPasteboard.MemoryBlock := [] in
  NativeMacPasteboard.copyDataToClipboard presetData (length presetData)
    "com.yourcompany.yourapp.preset" pb.

(* ===================================================================== *)
(** ** PresetMenuButton (examples.cpp, example 14) *)
(* ===================================================================== *)

(** [PopupMenu::addItem (id, text, isEnabled, isTicked)]. *)
Definition PopupMenu_addItem (id : Z) (t : string) (enabled ticked : bool)
    (m : PopupMenu) : PopupMenu :=
  mkPopupMenu (menuItems m ++ [mkItem t id enabled ticked false None]).

(** [juce::String::formatted ("%03d", i)]. *)
Definition formatted03d (i : Z) : string :=
  let digits := pretty (Z.abs i) in
  let width := if i <? 0 then 2%nat else 3%nat in
  let zeros := String.concat EmptyString
                 (replicate (width - String.length digits) "0"%string) in
  String.append (if i <? 0 then "-"%string else EmptyString)
                (String.append zeros digits).

Definition presetCount : Z := 128.

(** The loop of [showPresetMenu]: presets 1 to 128, the current one ticked. *)
Definition buildPresetList (currentPreset : Z) : PopupMenu :=
  foldl (fun menu i =>
           PopupMenu_addItem i (String.append "Preset " (formatted03d i)) true
             (i =? currentPreset) menu)
        (mkPopupMenu []) (seqZ 1 presetCount).

(** [getScreenBounds()] of the button, as far as it is read. *)
Record ScreenBounds := mkScreenBounds { bounds_getX : Z; bounds_getBottom : Z }.

(** Returns [currentPreset] as the call leaves it. *)
Definition showPresetMenu (currentPreset : Z) (bounds : ScreenBounds)
    (env : Env) (w : World) : Z * World :=
  let menu := buildPresetList currentPreset in
  let menuPos := mkJucePoint (bounds_getX bounds) (bounds_getBottom bounds) in
  let '(result, w) := NativeMacPopupMenu.showPopupMenuAt menu menuPos false env w in
  if result >? 0 then (result, w) else (currentPreset, w).

(* ===================================================================== *)
(** ** Properties of whole native menu trees *)
(* ===================================================================== *)

(** [p] holds of a menu and of every submenu below it; [q] holds of every
    item at every depth. *)
Fixpoint everyMenu (p : NSMenu -> bool) (m : NSMenu) : bool :=
  p m &&
  forallb (fun it => match ns_submenu it with
                     | Some s => everyMenu p s
                     | None => true
                     end)
          (nm_items m).

Fixpoint everyItem (q : NSMenuItem -> bool) (m : NSMenu) : bool :=
  forallb (fun it => q it && match ns_submenu it with
                             | Some s => everyItem q s
                             | None => true
                             end)
          (nm_items m).

(** A menu as the conversion configures it. *)
Definition menuConfigured (useSmallSize : bool) (m : NSMenu) : bool :=
  negb (nm_autoenablesItems m) &&
  match nm_font m, useSmallSize with
  | SmallMenuFont, true | DefaultMenuFont, false => true
  | _, _ => false
  end.

(** An item as the conversion wires it: a submenu is titled after the item
    that holds it; only an item without submenu that is no separator has
    an action, and its target is [target]. *)
Definition itemWired (target : ObjId) (it : NSMenuItem) : bool :=
  match ns_submenu it with
  | Some s =>
      String.eqb (nm_title s) (ns_title it) &&
      match ns_action it, ns_target it with None, None => true | _, _ => false end
  | None =>
      if ns_isSeparatorItem it
      then match ns_action it, ns_target it with None, None => true | _, _ => false end
      else match ns_action it, ns_target it with
           | Some menuItemSelected_sel, Some t => Nat.eqb t target
           | _, _ => false
           end
  end.

(** The item the loop of [showPresetMenu] adds for preset [i]. *)
Definition presetItem (currentPreset i : Z) : Item :=
  mkItem (String.append "Preset " (formatted03d i)) i true (i =? currentPreset)
         false None.

(* ===================================================================== *)
(** ** Values of CGFloat and reference text conversions *)
(* ===================================================================== *)

(** The integer a binary64 value denotes, when it denotes one: a finite
    float is (-1)^s * m * 2^e. *)
Definition SF2Z (x : spec_float) : option Z :=
  match x with
  | S754_zero _ => Some 0
  | S754_finite s m e =>
      match e with
      | Zneg p => if Z.pos m mod 2 ^ Z.pos p =? 0
                  then Some (cond_Zopp s (Z.pos m / 2 ^ Z.pos p))
                  else None
      | _ => Some (cond_Zopp s (Z.pos m * 2 ^ e))
      end
  | _ => None
  end.

Definition CGFloat_to_int (f : CGFloat) : option Z := SF2Z (Prim2SF f).

(** UTF-8 to UTF-16 and back for well-formed text, to run the dialog model
    on concrete strings.  Where the input is ill-formed these functions put
    U+FFFD; what the system's conversions do there is left open, and the
    theorems about the dialog hold for any pair of conversions. *)
Definition byteZ (c : ascii) : Z := Z.of_N (N_of_ascii c).
Definition asciiZ (z : Z) : ascii := ascii_of_N (Z.to_N z).
Definition replacementUnit : Z := 0xFFFD.

Fixpoint utf8_to_utf16 (s : string) : NativeMacDialogs.NSString :=
  match s with
  | EmptyString => []
  | String c0 s1 =>
      let b0 := byteZ c0 in
      if b0 <? 0x80 then b0 :: utf8_to_utf16 s1
      else if b0 <? 0xC0 then replacementUnit :: utf8_to_utf16 s1
      else if b0 <? 0xE0 then
        match s1 with
        | String c1 s2 =>
            (Z.lor (Z.shiftl (Z.land b0 0x1F) 6) (Z.land (byteZ c1) 0x3F))
              :: utf8_to_utf16 s2
        | EmptyString => [replacementUnit]
        end
      else if b0 <? 0xF0 then
        match s1 with
        | String c1 (String c2 s3) =>
            (Z.lor (Z.shiftl (Z.land b0 0x0F) 12)
               (Z.lor (Z.shiftl (Z.land (byteZ c1) 0x3F) 6) (Z.land (byteZ c2) 0x3F)))
              :: utf8_to_utf16 s3
        | _ => [replacementUnit]
        end
      else
        match s1 with
        | String c1 (String c2 (String c3 s4)) =>
            let cp := Z.lor (Z.shiftl (Z.land b0 0x07) 18)
                        (Z.lor (Z.shiftl (Z.land (byteZ c1) 0x3F) 12)
                           (Z.lor (Z.shiftl (Z.land (byteZ c2) 0x3F) 6)
                                  (Z.land (byteZ c3) 0x3F))) in
            let v := cp - 0x10000 in
            (0xD800 + Z.shiftr v 10) :: (0xDC00 + Z.land v 0x3FF) :: utf8_to_utf16 s4
        | _ => [replacementUnit]
        end
  end.

Definition utf8_of_codepoint (cp : Z) (rest : string) : string :=
  if cp <? 0x80 then String (asciiZ cp) rest
  else if cp <? 0x800 then
    String (asciiZ (Z.lor 0xC0 (Z.shiftr cp 6)))
      (String (asciiZ (Z.lor 0x80 (Z.land cp 0x3F))) rest)
  else if cp <? 0x10000 then
    String (asciiZ (Z.lor 0xE0 (Z.shiftr cp 12)))
      (String (asciiZ (Z.lor 0x80 (Z.land (Z.shiftr cp 6) 0x3F)))
         (String (asciiZ (Z.lor 0x80 (Z.land cp 0x3F))) rest))
  else
    String (asciiZ (Z.lor 0xF0 (Z.shiftr cp 18)))
      (String (asciiZ (Z.lor 0x80 (Z.land (Z.shiftr cp 12) 0x3F)))
         (String (asciiZ (Z.lor 0x80 (Z.land (Z.shiftr cp 6) 0x3F)))
            (String (asciiZ (Z.lor 0x80 (Z.land cp 0x3F))) rest))).

Definition isHighSurrogate (u : Z) : bool := (0xD800 <=? u) && (u <? 0xDC00).
Definition isLowSurrogate (u : Z) : bool := (0xDC00 <=? u) && (u <? 0xE000).

Fixpoint utf16_to_utf8 (l : NativeMacDialogs.NSString) : string :=
  match l with
  | [] => EmptyString
  | u :: rest =>
      if isHighSurrogate u then
        match rest with
        | lo :: rest' =>
            if isLowSurrogate lo
            then utf8_of_codepoint
                   (0x10000 + Z.shiftl (u - 0xD800) 10 + (lo - 0xDC00))
                   (utf16_to_utf8 rest')
            else utf8_of_codepoint replacementUnit (utf16_to_utf8 rest)
        | [] => utf8_of_codepoint replacementUnit EmptyString
        end
      else if isLowSurrogate u
      then utf8_of_codepoint replacementUnit (utf16_to_utf8 rest)
      else utf8_of_codepoint u (utf16_to_utf8 rest)
  end.

(** The dialog run with the reference conversions. *)
Definition showTextInputDialog_utf8 :=
  NativeMacDialogs.showTextInputDialog utf8_to_utf16 utf16_to_utf8.

(* ===================================================================== *)
(** * Proofs *)
(* ===================================================================== *)

(** ** Induction over menu trees *)

Lemma PopupMenu_tree_ind (P : PopupMenu -> Prop) :
  (forall its,
      Forall (fun it => forall sub, subMenu it = Some sub -> P sub) its ->
      P (mkPopupMenu its)) ->
  forall m, P m.
Proof.
  intros step.
  fix IH 1.
  intros [its]. apply step.
  induction its as [|it rest IHrest]; constructor; [|exact IHrest].
  intros sub Hsub. destruct it as [t i e k s sm]. simpl in Hsub.
  destruct sm as [sm|]; [|discriminate].
  injection Hsub as <-. apply IH.
Qed.

Lemma build_unfold m target out title small w :
  buildNSMenuFromJuceMenu m target out title small w
  = buildStep buildNSMenuFromJuceMenu m target out title small w.
Proof. destruct m; reflexivity. Qed.

Lemma build_eq m target out title small w :
  buildNSMenuFromJuceMenu m target out title small w
  = menuLoop (subBuilder target small) target (menuItems m)
      (let nsMenu := setAutoenablesItems false (initMenuWithTitle (nextObj w) title) in
       if small then setFont SmallMenuFont nsMenu else nsMenu)
      out (advance 1 w).
Proof.
  destruct m as [its]. unfold advance. rewrite Nat.add_1_r. reflexivity.
Qed.

Lemma menuObjects_eq m :
  menuObjects m = S (list_sum (map itemObjects (menuItems m))).
Proof. destruct m; reflexivity. Qed.

Lemma allItemObjs_eq m :
  allItemObjs m = flat_map (fun it => ns_obj it :: nestedObjsOfItem it) (nm_items m).
Proof. destruct m; reflexivity. Qed.

Lemma advance_advance a b w : advance a (advance b w) = advance (b + a) w.
Proof. unfold advance; simpl. f_equal. lia. Qed.

Lemma alloc_eq w : alloc w = (nextObj w, advance 1 w).
Proof. unfold alloc, advance. rewrite Nat.add_1_r. reflexivity. Qed.

(** ** The world after a build: only the allocator has moved *)

Lemma menuLoop_world bs target its :
  Forall (fun it => forall sub, subMenu it = Some sub ->
            forall title w, (bs sub title w).2 = advance (menuObjects sub) w) its ->
  forall nsMenu out w,
    (menuLoop bs target its nsMenu out w).2
    = advance (list_sum (map itemObjects its)) w.
Proof.
  induction 1 as [|it rest Hit _ IH]; intros nsMenu out w; simpl.
  - unfold advance. rewrite Nat.add_0_r. by destruct w.
  - unfold loopBody, itemObjects. rewrite !alloc_eq.
    destruct (isSeparator it).
    + rewrite IH, advance_advance. reflexivity.
    + destruct (subMenu it) as [sub|].
      * specialize (Hit sub eq_refl (text it) w).
        destruct (bs sub (text it) w) as [subNs w1]. simpl in Hit. subst w1.
        rewrite alloc_eq, IH, !advance_advance. f_equal. fold itemObjects. lia.
      * rewrite IH, advance_advance. reflexivity.
Qed.

Lemma build_world m :
  forall target out title small w,
    (buildNSMenuFromJuceMenu m target out title small w).2
    = advance (menuObjects m) w.
Proof.
  induction m as [its IH] using PopupMenu_tree_ind.
  intros target out title small w.
  rewrite build_eq, menuObjects_eq. simpl menuItems.
  rewrite menuLoop_world, advance_advance; [reflexivity|].
  eapply Forall_impl; [exact IH|]. simpl.
  intros it Hit sub Hsub t w0. unfold subBuilder.
  rewrite <- (Hit sub Hsub target None t small w0).
  by destruct (buildNSMenuFromJuceMenu sub target None t small w0) as [[? ?] ?].
Qed.

(** ** One pass of the loop, and the loop *)

Lemma loopBody_spec bs target it nsMenu out w :
  subBuilderOk bs it ->
  exists ns,
    loopBody bs target it nsMenu out w
    = (addItem ns nsMenu, outStep it ns out, advance (itemObjects it) w) /\
    itemImage bs target it ns /\
    (forall o, o ∈ ns_obj ns :: nestedObjsOfItem ns ->
               (nextObj w <= o < nextObj w + itemObjects it)%nat) /\
    NoDup (ns_obj ns :: nestedObjsOfItem ns).
Proof.
  intros Hbs.
  unfold loopBody, itemImage, outStep, tickedPlain, itemObjects, subBuilderOk in *.
  destruct (isSeparator it) eqn:Hsep.
  - rewrite alloc_eq. exists (separatorItem (nextObj w)).
    split; [by destruct out as [[?|]|]|]. split; [reflexivity|].
    simpl. split.
    + intros o Ho. apply list_elem_of_singleton in Ho. lia.
    + apply NoDup_singleton.
  - destruct (subMenu it) as [sub|] eqn:Hsub.
    + destruct (Hbs sub eq_refl (text it) w) as (Hw & Hrange & Hnd).
      destruct (bs sub (text it) w) as [subNs w1] eqn:Hcall. simpl in *. subst w1.
      exists (mkNSMenuItem (nextObj w + menuObjects sub)%nat false (text it) None 0 None
                (isEnabled it) NSControlStateValueOff (Some subNs)).
      split; [|split; [|split]].
      * unfold initWithTitle, setSubmenu, setEnabled, advance. simpl.
        replace (nextObj w + S (menuObjects sub))%nat
          with (S (nextObj w + menuObjects sub)) by lia.
        by destruct out as [[?|]|].
      * exists w. simpl. by rewrite Hcall.
      * simpl. intros o Ho. apply elem_of_cons in Ho as [->|Ho]; [lia|].
        apply Hrange in Ho. lia.
      * simpl. apply NoDup_cons. split; [|exact Hnd].
        intros Ho. apply Hrange in Ho. lia.
    + rewrite alloc_eq.
      eexists (mkNSMenuItem (nextObj w) false (text it) (Some menuItemSelected_sel)
                 (itemID it) (Some target) (isEnabled it)
                 (if isTicked it then NSControlStateValueOn else NSControlStateValueOff)
                 None).
      split; [|split; [|split]].
      * unfold initWithTitle, setTag, setTarget, setEnabled, setState. simpl.
        by destruct out as [[?|]|], (isTicked it).
      * reflexivity.
      * simpl. intros o Ho. apply list_elem_of_singleton in Ho. lia.
      * apply NoDup_singleton.
Qed.

Lemma menuLoop_spec bs target its :
  Forall (subBuilderOk bs) its ->
  forall nsMenu out w,
  exists new,
    menuLoop bs target its nsMenu out w
    = (mkNSMenu (nm_obj nsMenu) (nm_title nsMenu) (nm_autoenablesItems nsMenu)
         (nm_font nsMenu) (nm_items nsMenu ++ new),
       outAfter its new out,
       advance (list_sum (map itemObjects its)) w) /\
    Forall2 (itemImage bs target) its new /\
    (forall o, o ∈ objsOf new ->
       (nextObj w <= o < nextObj w + list_sum (map itemObjects its))%nat) /\
    NoDup (objsOf new).
Proof.
  induction 1 as [|it rest Hit _ IH]; intros nsMenu out w.
  - exists []. simpl. rewrite app_nil_r. unfold advance. rewrite Nat.add_0_r.
    split; [by destruct nsMenu, w|]. split; [constructor|].
    split; [|constructor]. intros o Ho. inversion Ho.
  - destruct (loopBody_spec bs target it nsMenu out w Hit)
      as (ns & Hbody & Himg & Hrange & Hnd).
    destruct (IH (addItem ns nsMenu) (outStep it ns out) (advance (itemObjects it) w))
      as (new & Hloop & Himgs & Hranges & Hnds).
    exists (ns :: new). simpl menuLoop. rewrite Hbody, Hloop.
    simpl in Hranges.
    change (list_sum (map itemObjects (it :: rest)))
      with (itemObjects it + list_sum (map itemObjects rest))%nat.
    simpl outAfter. simpl nm_items. simpl nm_obj. simpl nm_title.
    simpl nm_autoenablesItems. simpl nm_font.
    split; [|split; [|split]].
    + rewrite advance_advance, <- app_assoc. reflexivity.
    + by constructor.
    + intros o Ho. change (o ∈ (ns_obj ns :: nestedObjsOfItem ns) ++ objsOf new) in Ho.
      apply elem_of_app in Ho as [Ho|Ho].
      * apply Hrange in Ho. lia.
      * apply Hranges in Ho. lia.
    + change (NoDup ((ns_obj ns :: nestedObjsOfItem ns) ++ objsOf new)).
      apply NoDup_app. split; [exact Hnd|]. split; [|exact Hnds].
      intros o Ho1 Ho2. apply Hrange in Ho1. apply Hranges in Ho2. lia.
Qed.

(** ** The result of a build *)

Lemma build_spec m :
  forall target out title small w,
  exists items,
    buildNSMenuFromJuceMenu m target out title small w
    = (mkNSMenu (nextObj w) title false
         (if small then SmallMenuFont else DefaultMenuFont) items,
       outAfter (menuItems m) items out,
       advance (menuObjects m) w) /\
    Forall2 (itemImage (subBuilder target small) target) (menuItems m) items /\
    (forall o, o ∈ objsOf items ->
       (nextObj w < o < nextObj w + menuObjects m)%nat) /\
    NoDup (objsOf items).
Proof.
  induction m as [its IH] using PopupMenu_tree_ind.
  intros target out title small w.
  assert (Hok : Forall (subBuilderOk (subBuilder target small)) its).
  { eapply Forall_impl; [exact IH|]. simpl.
    intros it Hit sub Hsub t w0.
    destruct (Hit sub Hsub target None t small w0) as (items & Heq & _ & Hr & Hnd).
    unfold subBuilder. rewrite Heq. cbn [fst snd]. rewrite allItemObjs_eq.
    cbn [nm_items]. fold (objsOf items).
    split; [reflexivity|]. split; [|exact Hnd].
    intros o Ho. apply Hr in Ho. lia. }
  rewrite build_eq, menuObjects_eq. simpl menuItems.
  match goal with |- context [menuLoop _ _ _ ?nm _ ?w1] =>
    destruct (menuLoop_spec _ target its Hok nm out w1)
      as (items & Heq & Himgs & Hr & Hnd)
  end.
  exists items. rewrite Heq. split; [|split; [exact Himgs|split; [|exact Hnd]]].
  - rewrite advance_advance. by destruct small.
  - intros o Ho. apply Hr in Ho. simpl in Ho. lia.
Qed.

Lemma subBuilder_fst target small sub title w :
  (subBuilder target small sub title w).1
  = (buildNSMenuFromJuceMenu sub target None title small w).1.1.
Proof.
  unfold subBuilder.
  by destruct (buildNSMenuFromJuceMenu sub target None title small w) as [[? ?] ?].
Qed.

Lemma itemImage_corresponds target small it ns :
  (forall sub, subMenu it = Some sub ->
     forall tg out title sm w,
       menu_corresponds sub (buildNSMenuFromJuceMenu sub tg out title sm w).1.1) ->
  itemImage (subBuilder target small) target it ns ->
  item_corresponds it ns.
Proof.
  intros IH Himg. unfold itemImage in Himg.
  destruct (isSeparator it) eqn:Hsep.
  - apply corresponds_separator; [done|]. by rewrite Himg.
  - destruct (subMenu it) as [sub|] eqn:Hsub.
    + destruct Himg as [w0 ->].
      eapply corresponds_submenu; try done.
      rewrite subBuilder_fst. by apply IH.
    + rewrite Himg. apply corresponds_plain; try done. simpl.
      destruct (isTicked it); split; congruence.
Qed.

(** C1: for every JUCE PopupMenu, buildNSMenuFromJuceMenu yields a native
    menu whose items correspond one-to-one and in order to the items of the
    source menu (whatever the target, out-pointer, title, size flag and
    world): a separator becomes a native separator; otherwise an item with
    a submenu becomes a native item carrying the recursively converted
    submenu, with the same title and enabled flag; every other item becomes
    a native item with the item's text as title, itemID as tag, isEnabled
    as enabled flag and check state On exactly when isTicked holds. *)
Theorem buildNSMenuFromJuceMenu_items_correspond (m : PopupMenu) :
  forall target out title small w,
    menu_corresponds m (buildNSMenuFromJuceMenu m target out title small w).1.1.
Proof.
  induction m as [its IH] using PopupMenu_tree_ind.
  intros target out title small w.
  destruct (build_spec (mkPopupMenu its) target out title small w)
    as (items & Heq & Himgs & _).
  rewrite Heq. constructor. simpl in *.
  clear Heq. induction Himgs as [|it ns rest nss Himg _ IHrest]; constructor.
  - eapply itemImage_corresponds; [|exact Himg].
    by apply Forall_inv in IH.
  - apply IHrest. by apply Forall_inv_tail in IH.
Qed.

Example sampleMenu_built :
  (buildNSMenuFromJuceMenu sampleMenu 1000%nat (Some None) EmptyString false
     (mkWorld 0 1001%nat [])).1
  = (mkNSMenu 1001%nat EmptyString false DefaultMenuFont
       [mkNSMenuItem 1005%nat false "File" None 0 None true NSControlStateValueOff
          (Some (mkNSMenu 1002%nat "File" false DefaultMenuFont
                   [mkNSMenuItem 1003%nat false "New" (Some menuItemSelected_sel) 101
                      (Some 1000%nat) true NSControlStateValueOff None;
                    mkNSMenuItem 1004%nat false "Open" (Some menuItemSelected_sel) 102
                      (Some 1000%nat) true NSControlStateValueOn None]));
        separatorItem 1006%nat;
        mkNSMenuItem 1007%nat false "Preset 1" (Some menuItemSelected_sel) 201
          (Some 1000%nat) true NSControlStateValueOff None;
        mkNSMenuItem 1008%nat false "Preset 2" (Some menuItemSelected_sel) 202
          (Some 1000%nat) true NSControlStateValueOn None;
        mkNSMenuItem 1009%nat false "Preset 3" (Some menuItemSelected_sel) 203
          (Some 1000%nat) false NSControlStateValueOn None],
     Some (Some 1008%nat)).
Proof. vm_compute. reflexivity. Qed.

(** The separator test comes first: a separator that also carries a
    submenu is converted to a plain separator and its submenu is skipped. *)
Example separator_with_submenu :
  nm_items (buildNSMenuFromJuceMenu
              (mkPopupMenu [mkItem "x" 7 true true true (Some sampleFileMenu)])
              1000%nat (Some None) EmptyString false (mkWorld 0 1001%nat [])).1.1
  = [separatorItem 1002%nat].
Proof. vm_compute. reflexivity. Qed.

(** ** Tracking a built menu *)

Lemma itemAtPath_build path :
  forall m target out title small w,
    match juceItemAtPath m path with
    | Some it =>
        exists ns,
          itemAtPath (buildNSMenuFromJuceMenu m target out title small w).1.1 path
          = Some ns /\
          itemImage (subBuilder target small) target it ns
    | None =>
        itemAtPath (buildNSMenuFromJuceMenu m target out title small w).1.1 path = None
    end.
Proof.
  induction path as [|i rest IH]; intros m target out title small w; [done|].
  destruct (build_spec m target out title small w) as (items & Heq & Himgs & _).
  rewrite Heq. cbn [fst]. simpl juceItemAtPath. simpl itemAtPath.
  destruct (menuItems m !! i) as [it|] eqn:Hit.
  - destruct (Forall2_lookup_l _ _ _ _ _ Himgs Hit) as (ns & Hns & Himg).
    rewrite Hns. destruct rest as [|j rest]; [by exists ns|].
    unfold itemImage in Himg.
    destruct (isSeparator it); [by rewrite Himg|].
    destruct (subMenu it) as [sub|].
    + destruct Himg as [w0 ->]. cbn [ns_enabled ns_submenu].
      destruct (isEnabled it); [|done].
      rewrite subBuilder_fst. apply IH.
    + rewrite Himg. cbn [ns_enabled ns_submenu]. by destruct (isEnabled it).
  - apply (Forall2_length) in Himgs.
    apply lookup_ge_None in Hit.
    by rewrite (proj2 (lookup_ge_None items i)) by lia.
Qed.

Lemma trackMenu_build menu target out title small w c u :
  let r := buildNSMenuFromJuceMenu menu target out title small w in
  gSelectedMenuItemID (trackMenu r.1.1 u (recordCall c r.2))
  = match userSelection menu u with
    | Some it => to_int (itemID it)
    | None => gSelectedMenuItemID w
    end.
Proof.
  intros r.
  assert (Hg : gSelectedMenuItemID (recordCall c r.2) = gSelectedMenuItemID w).
  { unfold r. by rewrite build_world. }
  destruct u as [|path]; [exact Hg|].
  unfold trackMenu, userSelection.
  pose proof (itemAtPath_build path menu target out title small w) as Hp.
  fold r in Hp.
  destruct (juceItemAtPath menu path) as [it|]; [|by rewrite Hp].
  destruct Hp as (ns & -> & Himg).
  unfold itemImage in Himg. unfold selectable, activatable.
  destruct (isSeparator it); [by rewrite Himg|].
  destruct (subMenu it) as [sub|].
  - destruct Himg as [w0 ->]. cbn [ns_isSeparatorItem ns_enabled ns_submenu].
    by rewrite andb_false_r.
  - rewrite Himg. cbn [ns_isSeparatorItem ns_enabled ns_submenu negb andb].
    rewrite andb_true_r. by destruct (isEnabled it).
Qed.

Lemma to_int_id z : in_int_range z -> to_int z = z.
Proof.
  unfold in_int_range, int_min, int_max, to_int. intros H.
  rewrite Z.mod_small; lia.
Qed.

(** ** The three entry points unfolded *)

Lemma showPopupMenuAt_eq menu pos small env w :
  let r := buildNSMenuFromJuceMenu menu (nextObj w) (Some None) EmptyString small
             (advance 1 (set_gSelectedMenuItemID 0 w)) in
  let yPos := PrimFloat.sub (mainScreenHeight env) (CGFloat_of_int (getY pos)) in
  let yPos := match NativeMacPopupMenu.deref r.1.2 with
              | Some _ => PrimFloat.add yPos 10%float
              | None => yPos
              end in
  let wEnd := trackMenu r.1.1 (userAction env)
                (recordCall
                   (popUpMenuPositioningItem_atLocation r.1.1
                      (NativeMacPopupMenu.deref r.1.2)
                      (NSMakePoint (CGFloat_of_int (getX pos)) yPos))
                   r.2) in
  NativeMacPopupMenu.showPopupMenuAt menu pos small env w
  = (gSelectedMenuItemID wEnd, wEnd).
Proof.
  unfold NativeMacPopupMenu.showPopupMenuAt. rewrite alloc_eq. simpl nextObj.
  by destruct (buildNSMenuFromJuceMenu _ _ _ _ _ _) as [[? ?] ?].
Qed.

Lemma showPopupMenuAtFixed_eq menu pos small env w :
  let r := buildNSMenuFromJuceMenu menu (nextObj w) None EmptyString small
             (advance 1 (set_gSelectedMenuItemID 0 w)) in
  let yPos := PrimFloat.sub (mainScreenHeight env) (CGFloat_of_int (getY pos)) in
  let wEnd := trackMenu r.1.1 (userAction env)
                (recordCall
                   (popUpMenuPositioningItem_atLocation r.1.1 None
                      (NSMakePoint (CGFloat_of_int (getX pos)) yPos))
                   r.2) in
  NativeMacPopupMenu.showPopupMenuAtFixed menu pos small env w
  = (gSelectedMenuItemID wEnd, wEnd).
Proof.
  unfold NativeMacPopupMenu.showPopupMenuAtFixed. rewrite alloc_eq. simpl nextObj.
  by destruct (buildNSMenuFromJuceMenu _ _ _ _ _ _) as [[? ?] ?].
Qed.

Lemma showPopupMenu_eq menu parent small env w :
  let r := buildNSMenuFromJuceMenu menu (nextObj w) (Some None) EmptyString small
             (advance 1 (set_gSelectedMenuItemID 0 w)) in
  let event := match currentEvent env with
               | Some e => e
               | None => leftMouseDownEvent (mouseLocation env) (systemUptime env)
               end in
  let call := match parent ≫= getWindowHandle with
              | Some v => popUpContextMenu_withEvent_forView r.1.1 event v
              | None => popUpMenuPositioningItem_atLocation r.1.1
                          (NativeMacPopupMenu.deref r.1.2) (mouseLocation env)
              end in
  let wEnd := trackMenu r.1.1 (userAction env) (recordCall call r.2) in
  NativeMacPopupMenu.showPopupMenu menu parent small env w
  = (gSelectedMenuItemID wEnd, wEnd).
Proof.
  unfold NativeMacPopupMenu.showPopupMenu. rewrite alloc_eq. simpl nextObj.
  destruct (buildNSMenuFromJuceMenu _ _ _ _ _ _) as [[? ?] ?].
  by destruct parent as [[[v|]]|].
Qed.

Lemma showPopupMenu_result menu parent small env w :
  (NativeMacPopupMenu.showPopupMenu menu parent small env w).1
  = selectionResult menu (userAction env).
Proof.
  rewrite showPopupMenu_eq. cbn [fst]. by rewrite trackMenu_build.
Qed.

Lemma showPopupMenuAt_result menu pos small env w :
  (NativeMacPopupMenu.showPopupMenuAt menu pos small env w).1
  = selectionResult menu (userAction env).
Proof.
  rewrite showPopupMenuAt_eq. cbn [fst]. by rewrite trackMenu_build.
Qed.

Lemma showPopupMenuAtFixed_result menu pos small env w :
  (NativeMacPopupMenu.showPopupMenuAtFixed menu pos small env w).1
  = selectionResult menu (userAction env).
Proof.
  rewrite showPopupMenuAtFixed_eq. cbn [fst]. by rewrite trackMenu_build.
Qed.

(** C2: each of showPopupMenu, showPopupMenuAt and showPopupMenuAtFixed
    returns the itemID of the item the user selected (it travels as the
    native item's tag, and itemID is a C++ int), and returns 0 when nothing
    was chosen. *)
Theorem popup_entry_points_return_selection
    (menu : PopupMenu) (parent : option Component) (pos : JucePoint)
    (small : bool) (env : Env) (w : World) :
  (forall it, userSelection menu (userAction env) = Some it ->
              in_int_range (itemID it)) ->
  let expected := match userSelection menu (userAction env) with
                  | Some it => itemID it
                  | None => 0
                  end in
  (NativeMacPopupMenu.showPopupMenu menu parent small env w).1 = expected /\
  (NativeMacPopupMenu.showPopupMenuAt menu pos small env w).1 = expected /\
  (NativeMacPopupMenu.showPopupMenuAtFixed menu pos small env w).1 = expected.
Proof.
  intros Hrange expected.
  rewrite showPopupMenu_result, showPopupMenuAt_result, showPopupMenuAtFixed_result.
  assert (selectionResult menu (userAction env) = expected) as ->; [|done].
  unfold selectionResult, expected.
  destruct (userSelection menu (userAction env)) as [it|]; [|done].
  apply to_int_id, Hrange. reflexivity.
Qed.

Lemma popup_entry_points_return_selection_witness :
  let env := sampleEnv (Choose [0%nat; 1%nat]) in
  let pos := mkJucePoint 100 200 in
  userSelection sampleMenu (userAction env) = Some (plainItem 102 "Open" true true) /\
  (NativeMacPopupMenu.showPopupMenu sampleMenu None false env sampleWorld).1 = 102 /\
  (NativeMacPopupMenu.showPopupMenuAt sampleMenu pos false env sampleWorld).1 = 102 /\
  (NativeMacPopupMenu.showPopupMenuAtFixed sampleMenu pos false env sampleWorld).1 = 102.
Proof.
  intros env pos. split; [reflexivity|].
  apply (popup_entry_points_return_selection sampleMenu None pos false env sampleWorld).
  intros it Hit. vm_compute in Hit. injection Hit as <-.
  unfold in_int_range, int_min, int_max. simpl. lia.
Defined.

Example dismissed_menu_returns_zero :
  (NativeMacPopupMenu.showPopupMenuAt sampleMenu (mkJucePoint 100 200) false
     (sampleEnv Dismiss) sampleWorld).1 = 0.
Proof. vm_compute. reflexivity. Qed.

Example disabled_item_cannot_be_chosen :
  (NativeMacPopupMenu.showPopupMenu sampleMenu None true
     (sampleEnv (Choose [4%nat])) sampleWorld).1 = 0.
Proof. vm_compute. reflexivity. Qed.

(** ** The checked item *)

Lemma outAfter_null its new : outAfter its new None = None.
Proof. revert new. induction its as [|it its IH]; intros [|ns new]; simpl; auto. Qed.

Lemma outAfter_set its new o : outAfter its new (Some (Some o)) = Some (Some o).
Proof. revert new. induction its as [|it its IH]; intros [|ns new]; simpl; auto. Qed.

Lemma outAfter_empty its new :
  outAfter its new (Some None) = Some (firstTickedObj its new).
Proof.
  revert new. induction its as [|it its IH]; intros [|ns new]; simpl; auto.
  destruct (tickedPlain it); [apply outAfter_set|apply IH].
Qed.

Lemma firstTickedObj_find its new :
  length its = length new ->
  match list_find (fun it => tickedPlain it = true) its with
  | Some (k, _) => exists ns, new !! k = Some ns /\ firstTickedObj its new = Some (ns_obj ns)
  | None => firstTickedObj its new = None
  end.
Proof.
  revert new. induction its as [|it its IH]; intros [|ns new] Hlen; try done.
  simpl in Hlen. injection Hlen as Hlen. specialize (IH new Hlen).
  cbn [list_find firstTickedObj]. case_decide as Hit.
  - rewrite Hit. by exists ns.
  - apply not_true_is_false in Hit. rewrite Hit.
    destruct (list_find _ its) as [[k it']|]; simpl; [|done].
    exact IH.
Qed.

Lemma objsOf_top ns l : ns ∈ l -> ns_obj ns ∈ objsOf l.
Proof.
  intros H. unfold objsOf. apply list_elem_of_In, in_flat_map.
  exists ns. split; [by apply list_elem_of_In|]. by left.
Qed.

Lemma objsOf_nested o l : o ∈ flat_map nestedObjsOfItem l -> o ∈ objsOf l.
Proof.
  unfold objsOf. rewrite !list_elem_of_In, !in_flat_map.
  intros (ns & Hns & Ho). exists ns. split; [done|]. by right.
Qed.

Lemma top_not_nested l :
  NoDup (objsOf l) ->
  forall ns, ns ∈ l -> ns_obj ns ∉ flat_map nestedObjsOfItem l.
Proof.
  induction l as [|a l IH]; intros Hnd ns Hns; [inversion Hns|].
  change (NoDup ((ns_obj a :: nestedObjsOfItem a) ++ objsOf l)) in Hnd.
  apply NoDup_app in Hnd as (Ha & Hdisj & Hl).
  apply NoDup_cons in Ha as [Ha _].
  simpl flat_map. rewrite elem_of_app.
  apply elem_of_cons in Hns as [->|Hns]; intros [Ho|Ho].
  - done.
  - apply (Hdisj (ns_obj a)); [by left|by apply objsOf_nested].
  - apply (Hdisj (ns_obj ns)); [by right|by apply objsOf_top].
  - by apply (IH Hl ns Hns).
Qed.

(** What a build started on a null variable leaves in it. *)
Lemma build_checked menu target title small w :
  let r := buildNSMenuFromJuceMenu menu target (Some None) title small w in
  match list_find (fun it => tickedPlain it = true) (menuItems menu) with
  | Some (k, _) =>
      exists ns, nm_items r.1.1 !! k = Some ns /\
                 r.1.2 = Some (Some (ns_obj ns)) /\
                 ns_obj ns ∈ topLevelObjs r.1.1 /\
                 ns_obj ns ∉ submenuObjs r.1.1
  | None => r.1.2 = Some None
  end.
Proof.
  intros r. unfold r.
  destruct (build_spec menu target (Some None) title small w)
    as (items & Heq & Himgs & _ & Hnd).
  rewrite Heq. cbn [fst snd nm_items]. rewrite outAfter_empty.
  pose proof (firstTickedObj_find (menuItems menu) items (Forall2_length _ _ _ Himgs)) as Hf.
  destruct (list_find _ (menuItems menu)) as [[k it]|]; [|by rewrite Hf].
  destruct Hf as (ns & Hk & ->). exists ns. split; [done|]. split; [done|].
  assert (ns ∈ items) by (by eapply list_elem_of_lookup_2).
  split.
  - unfold topLevelObjs. cbn [nm_items]. by apply list_elem_of_fmap_2.
  - unfold submenuObjs. cbn [nm_items]. by apply top_not_nested.
Qed.

Lemma build_null_stays_null menu target title small w :
  (buildNSMenuFromJuceMenu menu target None title small w).1.2 = None.
Proof.
  destruct (build_spec menu target None title small w) as (items & Heq & _).
  rewrite Heq. apply outAfter_null.
Qed.

(** ** What a display call leaves in the world *)

Lemma trackMenu_calls m u w :
  appkitCalls (trackMenu m u w) = appkitCalls w /\
  nextObj (trackMenu m u w) = nextObj w.
Proof.
  unfold trackMenu. destruct u as [|path]; [done|].
  destruct (itemAtPath m path) as [it|]; [|done].
  destruct (activatable it); [|done].
  unfold sendAction. by destruct (ns_action it) as [[]|], (ns_target it).
Qed.

Lemma display_world menu target out title small w0 c u :
  let r := buildNSMenuFromJuceMenu menu target out title small w0 in
  let wEnd := trackMenu r.1.1 u (recordCall c r.2) in
  appkitCalls wEnd = appkitCalls w0 ++ [c] /\
  nextObj wEnd = (nextObj w0 + menuObjects menu)%nat.
Proof.
  intros r wEnd. unfold wEnd.
  destruct (trackMenu_calls r.1.1 u (recordCall c r.2)) as [-> ->].
  unfold r. by rewrite build_world.
Qed.

(** The build each entry point performs: after resetting the variable and
    allocating the target. *)
Lemma showPopupMenuAt_world menu pos small env w :
  let r := builtFor menu small w (Some None) in
  let converted := PrimFloat.sub (mainScreenHeight env) (CGFloat_of_int (getY pos)) in
  let wEnd := (NativeMacPopupMenu.showPopupMenuAt menu pos small env w).2 in
  appkitCalls wEnd
  = appkitCalls w ++
    [popUpMenuPositioningItem_atLocation r.1.1 (NativeMacPopupMenu.deref r.1.2)
       (NSMakePoint (CGFloat_of_int (getX pos))
          (match NativeMacPopupMenu.deref r.1.2 with
           | Some _ => PrimFloat.add converted 10%float
           | None => converted
           end))] /\
  nextObj wEnd = (nextObj w + 1 + menuObjects menu)%nat.
Proof.
  intros r converted wEnd. unfold wEnd.
  rewrite showPopupMenuAt_eq. cbn [snd].
  split; (etrans; [apply display_world|]); [reflexivity|simpl; lia].
Qed.

Lemma showPopupMenuAtFixed_world menu pos small env w :
  let r := builtFor menu small w None in
  let converted := PrimFloat.sub (mainScreenHeight env) (CGFloat_of_int (getY pos)) in
  let wEnd := (NativeMacPopupMenu.showPopupMenuAtFixed menu pos small env w).2 in
  appkitCalls wEnd
  = appkitCalls w ++
    [popUpMenuPositioningItem_atLocation r.1.1 None
       (NSMakePoint (CGFloat_of_int (getX pos)) converted)] /\
  nextObj wEnd = (nextObj w + 1 + menuObjects menu)%nat.
Proof.
  intros r converted wEnd. unfold wEnd.
  rewrite showPopupMenuAtFixed_eq. cbn [snd].
  split; (etrans; [apply display_world|]); [reflexivity|simpl; lia].
Qed.

Lemma showPopupMenu_world menu parent small env w :
  let r := builtFor menu small w (Some None) in
  let event := match currentEvent env with
               | Some e => e
               | None => leftMouseDownEvent (mouseLocation env) (systemUptime env)
               end in
  let wEnd := (NativeMacPopupMenu.showPopupMenu menu parent small env w).2 in
  appkitCalls wEnd
  = appkitCalls w ++
    [match parent ≫= getWindowHandle with
     | Some v => popUpContextMenu_withEvent_forView r.1.1 event v
     | None => popUpMenuPositioningItem_atLocation r.1.1
                 (NativeMacPopupMenu.deref r.1.2) (mouseLocation env)
     end] /\
  nextObj wEnd = (nextObj w + 1 + menuObjects menu)%nat.
Proof.
  intros r event wEnd. unfold wEnd.
  rewrite showPopupMenu_eq. cbn [snd].
  split; (etrans; [apply display_world|]); [reflexivity|simpl; lia].
Qed.

(** ** The cast from int to CGFloat keeps the value *)

Lemma digits2_pos_iter mx k :
  digits2_pos (Pos.iter xO mx k) = (digits2_pos mx + k)%positive.
Proof.
  induction k using Pos.peano_ind.
  - simpl. lia.
  - rewrite Pos.iter_succ. simpl. rewrite IHk. lia.
Qed.

Lemma iter_xO_mul mx k : Z.pos (Pos.iter xO mx k) = Z.pos mx * 2 ^ Z.pos k.
Proof.
  induction k using Pos.peano_ind.
  - simpl. lia.
  - rewrite Pos.iter_succ. rewrite Pos2Z.inj_xO, IHk.
    rewrite Pos2Z.inj_succ, Z.pow_succ_r by lia. lia.
Qed.

Lemma fexp_small e : -1021 <= e -> fexp prec emax e = e - 53.
Proof.
  intros He. unfold fexp, emin, prec, emax.
  change (Z.max (e - 53) (3 - 1024 - 53) = e - 53). lia.
Qed.

(** Rounding a mantissa of fewer than 53 bits to binary64 only shifts it. *)
Lemma binary_round_small sx mx :
  Z.pos (digits2_pos mx) < 53 ->
  exists k,
    Z.pos k = 53 - Z.pos (digits2_pos mx) /\
    binary_round prec emax sx mx 0 = S754_finite sx (Pos.iter xO mx k) (Z.neg k).
Proof.
  intros Hd.
  destruct (53 - Z.pos (digits2_pos mx)) as [|k|k] eqn:Hk; try lia.
  exists k. split; [reflexivity|].
  unfold binary_round.
  rewrite fexp_small by lia.
  unfold shl_align.
  replace (Z.pos (digits2_pos mx) + 0 - 53 - 0) with (Z.neg k) by lia.
  unfold binary_round_aux, shr_fexp.
  cbn [Zdigits2]. rewrite digits2_pos_iter.
  replace (Z.pos (digits2_pos mx) + 0 - 53) with (Z.neg k) by lia.
  rewrite fexp_small by lia.
  replace (Z.pos (digits2_pos mx + k) + Z.neg k - 53 - Z.neg k) with 0 by lia.
  cbn [shr shr_record_of_loc shr_m loc_of_shr_record round_nearest_even Zdigits2].
  rewrite digits2_pos_iter, fexp_small by lia.
  replace (Z.pos (digits2_pos mx + k) + Z.neg k - 53 - Z.neg k) with 0 by lia.
  cbn [shr shr_m].
  unfold emax, prec.
  destruct (Z.leb_spec (Z.neg k) (1024 - 53)); [reflexivity|lia].
Qed.

Lemma digits2_pos_bound mx n :
  Z.pos mx < 2 ^ n -> 0 <= n -> Z.pos (digits2_pos mx) <= n.
Proof.
  revert n. induction mx as [p IH|p IH|]; intros n Hlt Hn; simpl.
  - assert (n <> 0) by (intros ->; simpl in Hlt; lia).
    specialize (IH (n - 1)).
    replace n with (Z.succ (n - 1)) in Hlt by lia.
    rewrite Z.pow_succ_r in Hlt by lia.
    rewrite Pos2Z.inj_succ. lia.
  - assert (n <> 0) by (intros ->; simpl in Hlt; lia).
    specialize (IH (n - 1)).
    replace n with (Z.succ (n - 1)) in Hlt by lia.
    rewrite Z.pow_succ_r in Hlt by lia.
    rewrite Pos2Z.inj_succ. lia.
  - assert (n <> 0) by (intros ->; simpl in Hlt; lia). lia.
Qed.

Lemma SF2Z_binary_round sx mx :
  Z.pos mx < 2 ^ 52 ->
  SF2Z (binary_round prec emax sx mx 0) = Some (cond_Zopp sx (Z.pos mx)).
Proof.
  intros Hlt.
  pose proof (digits2_pos_bound mx 52 Hlt ltac:(lia)) as Hd.
  destruct (binary_round_small sx mx ltac:(lia)) as (k & Hk & ->).
  unfold SF2Z. rewrite iter_xO_mul.
  rewrite Z.mod_mul, Z.eqb_refl by lia.
  rewrite Z.div_mul by lia. reflexivity.
Qed.

(** The binary64 value [(CGFloat) n] of a C++ int [n] denotes [n]. *)
Lemma CGFloat_of_int_value n :
  in_int_range n -> CGFloat_to_int (CGFloat_of_int n) = Some n.
Proof.
  unfold in_int_range, int_min, int_max. intros Hn.
  unfold CGFloat_to_int, CGFloat_of_int.
  destruct (Z.ltb_spec n 0) as [Hneg|Hpos].
  - rewrite opp_spec, of_uint63_spec.
    rewrite Uint63.of_Z_spec, Z.mod_small
      by (unfold Uint63.wB, Uint63.size; simpl; lia).
    destruct n as [|p|p]; try lia. simpl Z.opp. simpl binary_normalize.
    assert (Hlt : Z.pos p < 2 ^ 52) by lia.
    pose proof (digits2_pos_bound p 52 Hlt ltac:(lia)) as Hd.
    destruct (binary_round_small false p ltac:(lia)) as (k & Hk & ->).
    simpl SFopp. unfold SF2Z. rewrite iter_xO_mul.
    rewrite Z.mod_mul, Z.eqb_refl by lia.
    rewrite Z.div_mul by lia. reflexivity.
  - rewrite of_uint63_spec.
    rewrite Uint63.of_Z_spec, Z.mod_small
      by (unfold Uint63.wB, Uint63.size; simpl; lia).
    destruct n as [|p|p]; try lia; [reflexivity|].
    simpl binary_normalize. apply (SF2Z_binary_round false p). lia.
Qed.

(** C3: for every screen position (x, y) in JUCE coordinates (two C++
    ints), both showPopupMenuAt and showPopupMenuAtFixed hand AppKit a
    location whose x is a CGFloat denoting the given x, and whose y is
    built on the converted value screenHeight - y', the binary64
    difference of the main screen's height and a CGFloat y' denoting the
    given y: showPopupMenuAtFixed passes it as it is, and showPopupMenuAt
    passes it as it is when it positions no item and with the 10.0 of the
    checked-item alignment added when it positions one. *)
Theorem screen_position_is_flipped
    (menu : PopupMenu) (pos : JucePoint) (small : bool) (env : Env) (w : World) :
  in_int_range (getX pos) ->
  in_int_range (getY pos) ->
  exists x y : CGFloat,
    CGFloat_to_int x = Some (getX pos) /\
    CGFloat_to_int y = Some (getY pos) /\
    let converted := PrimFloat.sub (mainScreenHeight env) y in
    (exists nsMenu item,
       appkitCalls (NativeMacPopupMenu.showPopupMenuAt menu pos small env w).2
       = appkitCalls w ++
         [popUpMenuPositioningItem_atLocation nsMenu item
            (NSMakePoint x (match item with
                            | Some _ => PrimFloat.add converted 10%float
                            | None => converted
                            end))]) /\
    (exists nsMenu,
       appkitCalls (NativeMacPopupMenu.showPopupMenuAtFixed menu pos small env w).2
       = appkitCalls w ++
         [popUpMenuPositioningItem_atLocation nsMenu None (NSMakePoint x converted)]).
Proof.
  intros Hx Hy.
  exists (CGFloat_of_int (getX pos)), (CGFloat_of_int (getY pos)).
  split; [by apply CGFloat_of_int_value|]. split; [by apply CGFloat_of_int_value|].
  intros converted. split.
  - destruct (showPopupMenuAt_world menu pos small env w) as [-> _]. eauto.
  - destruct (showPopupMenuAtFixed_world menu pos small env w) as [-> _]. eauto.
Qed.

Lemma screen_position_is_flipped_witness :
  let pos := mkJucePoint 100 200 in
  let env := sampleEnv Dismiss in
  in_int_range (getX pos) /\ in_int_range (getY pos) /\
  exists x y : CGFloat,
    CGFloat_to_int x = Some (getX pos) /\
    CGFloat_to_int y = Some (getY pos) /\
    let converted := PrimFloat.sub (mainScreenHeight env) y in
    (exists nsMenu item,
       appkitCalls (NativeMacPopupMenu.showPopupMenuAt sampleMenu pos false env
                      sampleWorld).2
       = appkitCalls sampleWorld ++
         [popUpMenuPositioningItem_atLocation nsMenu item
            (NSMakePoint x (match item with
                            | Some _ => PrimFloat.add converted 10%float
                            | None => converted
                            end))]) /\
    (exists nsMenu,
       appkitCalls (NativeMacPopupMenu.showPopupMenuAtFixed sampleMenu pos false env
                      sampleWorld).2
       = appkitCalls sampleWorld ++
         [popUpMenuPositioningItem_atLocation nsMenu None (NSMakePoint x converted)]).
Proof.
  intros pos env.
  assert (Hx : in_int_range (getX pos))
    by (unfold in_int_range, int_min, int_max; simpl; lia).
  assert (Hy : in_int_range (getY pos))
    by (unfold in_int_range, int_min, int_max; simpl; lia).
  split; [exact Hx|]. split; [exact Hy|].
  exact (screen_position_is_flipped sampleMenu pos false env sampleWorld Hx Hy).
Defined.

Example CGFloat_values :
  CGFloat_to_int (PrimFloat.sub 1080%float (CGFloat_of_int 200)) = Some 880 /\
  CGFloat_to_int (CGFloat_of_int (-2147483648)) = Some (-2147483648) /\
  CGFloat_to_int 12.5%float = None.
Proof. vm_compute. auto. Qed.

Example CGFloat_of_int_exact :
  CGFloat_of_int 100 = 100%float /\ CGFloat_of_int (-35) = (-35)%float /\
  CGFloat_of_int 0 = 0%float.
Proof. vm_compute. auto. Qed.

Example showPopupMenuAtFixed_location :
  appkitCalls (NativeMacPopupMenu.showPopupMenuAtFixed sampleMenu (mkJucePoint 100 200)
                 false (sampleEnv Dismiss) sampleWorld).2
  = [popUpMenuPositioningItem_atLocation
       (builtFor sampleMenu false sampleWorld None).1.1 None
       (NSMakePoint 100%float 880%float)].
Proof. vm_compute. reflexivity. Qed.

(** C4: showPopupMenuAt positions the menu on a checked item and adds 10.0
    to the converted y exactly when the menu has a top-level item that is
    ticked, not a separator and without a submenu: the positioning item is
    then the native item standing at the index of the first such item, and
    otherwise no item is passed and the converted y is used unchanged.
    showPopupMenuAtFixed always passes no item and the converted y. *)
Theorem checked_item_positioning
    (menu : PopupMenu) (pos : JucePoint) (small : bool) (env : Env) (w : World) :
  let x := CGFloat_of_int (getX pos) in
  let converted := PrimFloat.sub (mainScreenHeight env) (CGFloat_of_int (getY pos)) in
  (exists nsMenu item y,
     appkitCalls (NativeMacPopupMenu.showPopupMenuAt menu pos small env w).2
     = appkitCalls w ++
       [popUpMenuPositioningItem_atLocation nsMenu item (NSMakePoint x y)] /\
     (is_Some item <-> exists it, it ∈ menuItems menu /\ tickedPlain it = true) /\
     match list_find (fun it => tickedPlain it = true) (menuItems menu) with
     | Some (k, _) =>
         (exists ns, nm_items nsMenu !! k = Some ns /\ item = Some (ns_obj ns)) /\
         y = PrimFloat.add converted 10%float
     | None => item = None /\ y = converted
     end) /\
  (exists nsMenu,
     appkitCalls (NativeMacPopupMenu.showPopupMenuAtFixed menu pos small env w).2
     = appkitCalls w ++
       [popUpMenuPositioningItem_atLocation nsMenu None (NSMakePoint x converted)]).
Proof.
  intros x converted. split.
  - destruct (showPopupMenuAt_world menu pos small env w) as [-> _].
    do 3 eexists. split; [reflexivity|].
    pose proof (build_checked menu (nextObj w) EmptyString small
                  (advance 1 (set_gSelectedMenuItemID 0 w))) as Hc.
    simpl in Hc. fold (builtFor menu small w (Some None)) in Hc.
    destruct (list_find _ (menuItems menu)) as [[k it]|] eqn:Hfind.
    + destruct Hc as (ns & Hk & -> & _). cbn [NativeMacPopupMenu.deref].
      apply list_find_Some in Hfind as (Hit & Ht & _).
      split; [|by eauto].
      split; [|by eauto]. intros _. exists it.
      split; [by eapply list_elem_of_lookup_2|done].
    + rewrite Hc. cbn [NativeMacPopupMenu.deref].
      split; [|done]. split; [by intros [? ?]|].
      intros (it & Hin & Ht). exfalso.
      eapply list_find_None in Hfind. eapply Forall_forall in Hfind; eauto.
  - destruct (showPopupMenuAtFixed_world menu pos small env w) as [-> _]. eauto.
Qed.

Example showPopupMenuAt_sample :
  appkitCalls (NativeMacPopupMenu.showPopupMenuAt sampleMenu (mkJucePoint 100 200)
                 false (sampleEnv Dismiss) sampleWorld).2
  = [popUpMenuPositioningItem_atLocation
       (builtFor sampleMenu false sampleWorld (Some None)).1.1 (Some 1008%nat)
       (NSMakePoint 100%float 890%float)] /\
  ns_obj <$> nm_items (builtFor sampleMenu false sampleWorld (Some None)).1.1 !! 3%nat
  = Some 1008%nat.
Proof. vm_compute. auto. Qed.

(** A ticked item inside a submenu is not recorded: no item, no offset. *)
Example ticked_only_in_submenu :
  appkitCalls (NativeMacPopupMenu.showPopupMenuAt
                 (mkPopupMenu [subMenuItem "File" sampleFileMenu])
                 (mkJucePoint 100 200) false (sampleEnv Dismiss) sampleWorld).2
  = [popUpMenuPositioningItem_atLocation
       (builtFor (mkPopupMenu [subMenuItem "File" sampleFileMenu]) false sampleWorld
          (Some None)).1.1
       None (NSMakePoint 100%float 880%float)].
Proof. vm_compute. reflexivity. Qed.

(** C5: the checked item recorded for positioning is never an item inside
    a submenu.  Whatever a build records in a null variable is the object
    of one of the top-level items of the menu it returns and of no item
    nested in a submenu; the body hands every recursive call a null
    out-pointer, and a build given a null out-pointer records nothing; so
    the display call of each entry point names either no positioning item
    or an item of the very menu displayed. *)
Theorem checked_item_is_never_in_submenu
    (menu : PopupMenu) (parent : option Component) (pos : JucePoint) (small : bool)
    (env : Env) (w : World) (target : ObjId) (title : string)
    (self : PopupMenu -> ObjId -> OutPtr -> string -> bool -> World
            -> NSMenu * OutPtr * World) :
  (let r := buildNSMenuFromJuceMenu menu target (Some None) title small w in
   match r.1.2 with
   | Some (Some o) => o ∈ topLevelObjs r.1.1 /\ o ∉ submenuObjs r.1.1
   | _ => True
   end) /\
  buildStep (withNullOut self) menu target (Some None) title small w
  = buildStep self menu target (Some None) title small w /\
  (buildNSMenuFromJuceMenu menu target None title small w).1.2 = None /\
  (exists c,
     appkitCalls (NativeMacPopupMenu.showPopupMenu menu parent small env w).2
     = appkitCalls w ++ [c] /\ positioningItemIsTopLevel c) /\
  (exists c,
     appkitCalls (NativeMacPopupMenu.showPopupMenuAt menu pos small env w).2
     = appkitCalls w ++ [c] /\ positioningItemIsTopLevel c) /\
  (exists c,
     appkitCalls (NativeMacPopupMenu.showPopupMenuAtFixed menu pos small env w).2
     = appkitCalls w ++ [c] /\ positioningItemIsTopLevel c).
Proof.
  assert (Hrec : forall tg t w0,
            let r := buildNSMenuFromJuceMenu menu tg (Some None) t small w0 in
            match NativeMacPopupMenu.deref r.1.2 with
            | Some o => o ∈ topLevelObjs r.1.1 /\ o ∉ submenuObjs r.1.1
            | None => True
            end).
  { intros tg t w0 r. pose proof (build_checked menu tg t small w0) as Hc.
    fold r in Hc. destruct (list_find _ (menuItems menu)) as [[k it]|].
    - by destruct Hc as (ns & _ & -> & Htop & Hsub).
    - by rewrite Hc. }
  split; [|split; [reflexivity|split; [apply build_null_stays_null|]]].
  { specialize (Hrec target title w). simpl in Hrec. revert Hrec.
    generalize (buildNSMenuFromJuceMenu menu target (Some None) title small w).
    by intros [[nm [[o|]|]] w']. }
  specialize (Hrec (nextObj w) EmptyString (advance 1 (set_gSelectedMenuItemID 0 w))).
  simpl in Hrec. fold (builtFor menu small w (Some None)) in Hrec.
  split; [|split].
  - destruct (showPopupMenu_world menu parent small env w) as [-> _].
    eexists. split; [reflexivity|].
    destruct (parent ≫= getWindowHandle); [done|].
    unfold positioningItemIsTopLevel.
    by destruct (NativeMacPopupMenu.deref _).
  - destruct (showPopupMenuAt_world menu pos small env w) as [-> _].
    eexists. split; [reflexivity|].
    unfold positioningItemIsTopLevel.
    by destruct (NativeMacPopupMenu.deref _).
  - destruct (showPopupMenuAtFixed_world menu pos small env w) as [-> _].
    eexists. split; [reflexivity|done].
Qed.

(** C7: the popup-menu entry points keep no state observable across calls.
    Each resets gSelectedMenuItemID, so that the variable holds 0 when the
    menu is displayed, and the value returned does not depend on the world
    the call starts in, in particular not on what an earlier call left in
    the variable: two runs with the same menu and the same user action
    return the same value. *)
Theorem popup_result_ignores_prior_state
    (menu : PopupMenu) (parent : option Component) (pos : JucePoint) (small : bool)
    (env : Env) (w1 w2 : World) :
  (forall out, gSelectedMenuItemID (builtFor menu small w1 out).2 = 0) /\
  (NativeMacPopupMenu.showPopupMenu menu parent small env w1).1
  = (NativeMacPopupMenu.showPopupMenu menu parent small env w2).1 /\
  (NativeMacPopupMenu.showPopupMenuAt menu pos small env w1).1
  = (NativeMacPopupMenu.showPopupMenuAt menu pos small env w2).1 /\
  (NativeMacPopupMenu.showPopupMenuAtFixed menu pos small env w1).1
  = (NativeMacPopupMenu.showPopupMenuAtFixed menu pos small env w2).1.
Proof.
  split; [intros out; unfold builtFor; by rewrite build_world|].
  by rewrite !showPopupMenu_result, !showPopupMenuAt_result,
             !showPopupMenuAtFixed_result.
Qed.

Example stale_variable_is_not_returned :
  (NativeMacPopupMenu.showPopupMenuAtFixed sampleMenu (mkJucePoint 0 0) false
     (sampleEnv Dismiss) (mkWorld 202 0%nat [])).1 = 0 /\
  (NativeMacPopupMenu.showPopupMenu sampleMenu None false
     (sampleEnv (Choose [2%nat])) (mkWorld 202 0%nat [])).1 = 201.
Proof. vm_compute. auto. Qed.

(** ** Termination and resources *)

Lemma isSubMenuOf_wf : well_founded isSubMenuOf.
Proof.
  intros m. induction m as [its IH] using PopupMenu_tree_ind.
  constructor. intros s (it & Hin & Hsub). simpl in Hin.
  eapply Forall_forall in IH; [|exact Hin]. by apply IH.
Qed.

Lemma menuLoop_ext f g target its :
  (forall it sub, it ∈ its -> subMenu it = Some sub ->
     forall title w, f sub title w = g sub title w) ->
  forall nsMenu out w,
    menuLoop f target its nsMenu out w = menuLoop g target its nsMenu out w.
Proof.
  induction its as [|it rest IH]; intros Hfg nsMenu out w; [done|].
  simpl.
  assert (loopBody f target it nsMenu out w = loopBody g target it nsMenu out w) as ->.
  { unfold loopBody. destruct (isSeparator it); [done|].
    destruct (subMenu it) as [sub|] eqn:Hsub; [|done].
    rewrite (Hfg it sub); [done|by left|done]. }
  destruct (loopBody g target it nsMenu out w) as [[nm o] w1].
  apply IH. intros it' sub Hin. apply Hfg. by right.
Qed.

Lemma buildStep_ext f g m target out title small w :
  (forall sub, isSubMenuOf sub m ->
     forall t w', f sub target None t small w' = g sub target None t small w') ->
  buildStep f m target out title small w = buildStep g m target out title small w.
Proof.
  intros Hfg. unfold buildStep. destruct (alloc w) as [o w1].
  apply menuLoop_ext. intros it sub Hin Hsub t w'.
  rewrite (Hfg sub); [done|]. by exists it.
Qed.

Lemma subMenu_depth it sub its :
  it ∈ its -> subMenu it = Some sub ->
  (menuDepth sub <=
   list_max (map (fun it => match subMenu it with
                            | Some s => menuDepth s
                            | None => O
                            end) its))%nat.
Proof.
  intros Hin Hsub.
  induction its as [|a rest IH]; [inversion Hin|].
  simpl. apply elem_of_cons in Hin as [<-|Hin].
  - rewrite Hsub. lia.
  - specialize (IH Hin). lia.
Qed.

Lemma menuDepth_eq m :
  menuDepth m = S (list_max (map (fun it => match subMenu it with
                                            | Some s => menuDepth s
                                            | None => O
                                            end) (menuItems m))).
Proof. destruct m; reflexivity. Qed.

Lemma unrollBuild_enough bot m :
  forall n target out title small w,
    (menuDepth m <= n)%nat ->
    unrollBuild bot n m target out title small w
    = buildNSMenuFromJuceMenu m target out title small w.
Proof.
  induction m as [its IH] using PopupMenu_tree_ind.
  intros n target out title small w Hn.
  rewrite menuDepth_eq in Hn. simpl menuItems in Hn.
  destruct n as [|n]; [lia|].
  rewrite build_unfold. simpl unrollBuild.
  apply buildStep_ext. intros sub (it & Hin & Hsub) t w'. simpl in Hin.
  eapply Forall_forall in IH; [|exact Hin].
  apply (IH sub Hsub).
  pose proof (subMenu_depth it sub its Hin Hsub). lia.
Qed.

(** C8: the conversion terminates on every menu.  The submenu relation on
    menu trees is well founded; unrolling the body of
    buildNSMenuFromJuceMenu as many times as the menu is deep yields the
    function's result whatever stands in for deeper calls, so the recursion
    only ever descends into submenus and stops; a build allocates exactly
    one object per menu converted and per item, and changes nothing else in
    the world; and each entry point makes one build and one display call. *)
Theorem menu_conversion_terminates :
  well_founded isSubMenuOf /\
  (forall bot m target out title small w,
     unrollBuild bot (menuDepth m) m target out title small w
     = buildNSMenuFromJuceMenu m target out title small w) /\
  (forall m target out title small w,
     (buildNSMenuFromJuceMenu m target out title small w).2
     = advance (menuObjects m) w) /\
  (forall menu parent pos small env w,
     (exists c,
        appkitCalls (NativeMacPopupMenu.showPopupMenu menu parent small env w).2
        = appkitCalls w ++ [c] /\
        nextObj (NativeMacPopupMenu.showPopupMenu menu parent small env w).2
        = (nextObj w + 1 + menuObjects menu)%nat) /\
     (exists c,
        appkitCalls (NativeMacPopupMenu.showPopupMenuAt menu pos small env w).2
        = appkitCalls w ++ [c] /\
        nextObj (NativeMacPopupMenu.showPopupMenuAt menu pos small env w).2
        = (nextObj w + 1 + menuObjects menu)%nat) /\
     (exists c,
        appkitCalls (NativeMacPopupMenu.showPopupMenuAtFixed menu pos small env w).2
        = appkitCalls w ++ [c] /\
        nextObj (NativeMacPopupMenu.showPopupMenuAtFixed menu pos small env w).2
        = (nextObj w + 1 + menuObjects menu)%nat)).
Proof.
  split; [exact isSubMenuOf_wf|].
  split; [intros; by apply unrollBuild_enough|].
  split; [intros; apply build_world|].
  intros menu parent pos small env w.
  destruct (showPopupMenu_world menu parent small env w) as [H1 H1'].
  destruct (showPopupMenuAt_world menu pos small env w) as [H2 H2'].
  destruct (showPopupMenuAtFixed_world menu pos small env w) as [H3 H3'].
  eauto 10.
Qed.

Example sampleMenu_measures :
  menuDepth sampleMenu = 2%nat /\ menuObjects sampleMenu = 9%nat /\
  nextObj (NativeMacPopupMenu.showPopupMenu sampleMenu None false
             (sampleEnv Dismiss) sampleWorld).2 = 1010%nat.
Proof. vm_compute. auto. Qed.

(** ** The pasteboard *)

Lemma copy_then_dataForType data size uti pb :
  NativeMacPasteboard.dataForType uti
    (NativeMacPasteboard.copyDataToClipboard data size uti pb)
  = Some (take size data).
Proof.
  unfold NativeMacPasteboard.copyDataToClipboard, NativeMacPasteboard.setData,
    NativeMacPasteboard.declareTypes, NativeMacPasteboard.dataForType.
  cbn [NativeMacPasteboard.pb_types NativeMacPasteboard.pb_data].
  rewrite bool_decide_eq_true_2 by apply list_elem_of_singleton, eq_refl.
  cbn [NativeMacPasteboard.pb_data]. apply lookup_insert_eq.
Qed.

(** C6: clipboard transfer preserves bytes.  After copyDataToClipboard has
    put the [size] bytes at [data] on the pasteboard under [uti], a
    fetchDataFromClipboard with the same [uti] returns true and leaves the
    block holding exactly those [size] bytes, whatever it held before. *)
Theorem clipboard_round_trip
    (data : list byte) (size : nat) (uti : string)
    (pb : NativeMacPasteboard.NSPasteboard) (block : NativeMacPasteboard.MemoryBlock) :
  (size <= length data)%nat ->
  let pb' := NativeMacPasteboard.copyDataToClipboard data size uti pb in
  NativeMacPasteboard.fetchDataFromClipboard block uti pb' = (true, take size data) /\
  length (take size data) = size /\
  forall i, (i < size)%nat -> take size data !! i = data !! i.
Proof.
  intros Hsize pb'. unfold pb', NativeMacPasteboard.fetchDataFromClipboard.
  rewrite copy_then_dataForType. split; [reflexivity|]. split.
  - rewrite length_take. lia.
  - intros i Hi. by apply lookup_take_lt.
Qed.

Lemma clipboard_round_trip_witness :
  (3 <= length sampleBytes)%nat /\
  NativeMacPasteboard.fetchDataFromClipboard [x2a] sampleUTI
    (NativeMacPasteboard.copyDataToClipboard sampleBytes 3 sampleUTI emptyPasteboard)
  = (true, [x01; x00; xff]).
Proof.
  split; [simpl; lia|].
  apply (clipboard_round_trip sampleBytes 3 sampleUTI emptyPasteboard [x2a]).
  simpl. lia.
Defined.

(** C9: when the general pasteboard holds no data for the requested UTI,
    fetchDataFromClipboard returns false and leaves the block as it was;
    the block is replaced only on the branch that returns true, where it
    takes the stored data. *)
Theorem fetch_without_data_keeps_block
    (block : NativeMacPasteboard.MemoryBlock) (uti : string)
    (pb : NativeMacPasteboard.NSPasteboard) :
  NativeMacPasteboard.dataForType uti pb = None ->
  NativeMacPasteboard.fetchDataFromClipboard block uti pb = (false, block) /\
  forall block' uti' pb',
    let r := NativeMacPasteboard.fetchDataFromClipboard block' uti' pb' in
    (r.1 = false -> r.2 = block') /\
    (r.1 = true -> NativeMacPasteboard.dataForType uti' pb' = Some r.2).
Proof.
  intros Hnone. unfold NativeMacPasteboard.fetchDataFromClipboard.
  rewrite Hnone. split; [reflexivity|].
  intros block' uti' pb'.
  by destruct (NativeMacPasteboard.dataForType uti' pb').
Qed.

Lemma fetch_without_data_keeps_block_witness :
  NativeMacPasteboard.dataForType sampleUTI emptyPasteboard = None /\
  NativeMacPasteboard.fetchDataFromClipboard sampleBytes sampleUTI emptyPasteboard
  = (false, sampleBytes).
Proof.
  split; [reflexivity|].
  apply (fetch_without_data_keeps_block sampleBytes sampleUTI emptyPasteboard).
  reflexivity.
Defined.

(** A type other than the one copied is not on the pasteboard: copying
    clears what was there. *)
Example fetch_other_type_after_copy :
  NativeMacPasteboard.fetchDataFromClipboard [x2a] "public.data"
    (NativeMacPasteboard.copyDataToClipboard sampleBytes 5 sampleUTI
       (NativeMacPasteboard.copyDataToClipboard [x10] 1 "public.data" emptyPasteboard))
  = (false, [x2a]).
Proof. reflexivity. Qed.

(** ** The text input dialog *)

Lemma limitObserver_eq maxLength (t : NativeMacDialogs.NSString) :
  0 < maxLength ->
  NativeMacDialogs.limitObserver maxLength t = take (Z.to_nat maxLength) t.
Proof.
  intros Hpos. unfold NativeMacDialogs.limitObserver.
  destruct (Z.gtb_spec (Z.of_nat (length t)) maxLength) as [Hgt|Hle]; [done|].
  rewrite take_ge; [done|lia].
Qed.

Lemma limitObserver_bound maxLength (t : NativeMacDialogs.NSString) :
  0 < maxLength ->
  Z.of_nat (length (NativeMacDialogs.limitObserver maxLength t)) <= maxLength.
Proof.
  intros Hpos. rewrite limitObserver_eq, length_take by done. lia.
Qed.

Lemma edits_end_on_last observer field es e :
  fold_left (NativeMacDialogs.userEdit observer) (es ++ [e]) field
  = NativeMacDialogs.userEdit observer
      (fold_left (NativeMacDialogs.userEdit observer) es field) e.
Proof. by rewrite fold_left_app. Qed.

Lemma accepted_after_edit toNSString toJuceString title message currentText maxLength
    okButtonText cancelButtonText outText es e :
  0 < maxLength ->
  NativeMacDialogs.showTextInputDialog toNSString toJuceString title message
    currentText maxLength okButtonText cancelButtonText outText
    (NativeMacDialogs.mkSession (es ++ [e]) NativeMacDialogs.NSAlertFirstButtonReturn)
  = (true, toJuceString (take (Z.to_nat maxLength) e)).
Proof.
  intros Hpos.
  unfold NativeMacDialogs.showTextInputDialog, NativeMacDialogs.runModal.
  cbn [NativeMacDialogs.response NativeMacDialogs.edits].
  rewrite Z.eqb_refl, edits_end_on_last.
  rewrite (proj2 (Z.gtb_lt maxLength 0)) by lia.
  cbn [NativeMacDialogs.userEdit]. by rewrite limitObserver_eq.
Qed.

(** C10: in showTextInputDialog with maxLength > 0 the limit acts only
    through the text-change observer.  The initial currentText enters the
    field untruncated, so accepting the dialog without an edit returns
    true with outText equal to currentText, however long it is (for a
    currentText that the conversion to NSString and back preserves); once
    the user has edited the field, the field text handed back has at most
    maxLength UTF-16 units, the unit [text length] counts in. *)
Theorem text_limit_applies_only_to_edits
    (toNSString : string -> NativeMacDialogs.NSString)
    (toJuceString : NativeMacDialogs.NSString -> string)
    (title message currentText : string) (maxLength : Z)
    (okButtonText cancelButtonText outText : string) :
  0 < maxLength ->
  toJuceString (toNSString currentText) = currentText ->
  NativeMacDialogs.showTextInputDialog toNSString toJuceString title message
    currentText maxLength okButtonText cancelButtonText outText
    (NativeMacDialogs.mkSession [] NativeMacDialogs.NSAlertFirstButtonReturn)
  = (true, currentText) /\
  forall es e,
  exists field,
    NativeMacDialogs.showTextInputDialog toNSString toJuceString title message
      currentText maxLength okButtonText cancelButtonText outText
      (NativeMacDialogs.mkSession (es ++ [e]) NativeMacDialogs.NSAlertFirstButtonReturn)
    = (true, toJuceString field) /\
    Z.of_nat (length field) <= maxLength.
Proof.
  intros Hpos Hround. split.
  - unfold NativeMacDialogs.showTextInputDialog, NativeMacDialogs.runModal.
    cbn [NativeMacDialogs.response NativeMacDialogs.edits fold_left].
    by rewrite Z.eqb_refl, Hround.
  - intros es e. exists (take (Z.to_nat maxLength) e).
    split; [by apply accepted_after_edit|]. rewrite length_take. lia.
Qed.

Lemma text_limit_applies_only_to_edits_witness :
  0 < 3 /\
  utf16_to_utf8 (utf8_to_utf16 "Café Crème Pad") = "Café Crème Pad"%string /\
  NativeMacDialogs.showTextInputDialog utf8_to_utf16 utf16_to_utf8
    "Rename" "New name:" "Café Crème Pad" 3 "OK" "Cancel" EmptyString
    (NativeMacDialogs.mkSession [] NativeMacDialogs.NSAlertFirstButtonReturn)
  = (true, "Café Crème Pad"%string) /\
  length (utf8_to_utf16 "Café Crème Pad") = 14%nat.
Proof.
  split; [lia|]. split; [reflexivity|]. split; [|reflexivity].
  apply (text_limit_applies_only_to_edits utf8_to_utf16 utf16_to_utf8
           "Rename" "New name:" "Café Crème Pad" 3 "OK" "Cancel" EmptyString);
    [lia|reflexivity].
Defined.

Example edited_text_is_cut :
  showTextInputDialog_utf8 "Rename" "New name:" "Init Program" 3
    "OK" "Cancel" EmptyString
    (NativeMacDialogs.mkSession [utf8_to_utf16 "Init Program!"]
       NativeMacDialogs.NSAlertFirstButtonReturn)
  = (true, "Ini"%string).
Proof. reflexivity. Qed.

(** The limit counts UTF-16 units, not bytes: five units fit a limit of
    five, and a cut after two units keeps two whole characters. *)
Example accented_text_within_limit :
  showTextInputDialog_utf8 "Rename" "New name:" EmptyString 5
    "OK" "Cancel" EmptyString
    (NativeMacDialogs.mkSession [utf8_to_utf16 "héllo"]
       NativeMacDialogs.NSAlertFirstButtonReturn)
  = (true, "héllo"%string) /\
  showTextInputDialog_utf8 "Rename" "New name:" EmptyString 2
    "OK" "Cancel" EmptyString
    (NativeMacDialogs.mkSession [utf8_to_utf16 "ééé"]
       NativeMacDialogs.NSAlertFirstButtonReturn)
  = (true, "éé"%string).
Proof. split; reflexivity. Qed.

Example cancelled_dialog_keeps_outText :
  showTextInputDialog_utf8 "Rename" "New name:" "Init Program" 3
    "OK" "Cancel" "before"
    (NativeMacDialogs.mkSession [utf8_to_utf16 "abc"]
       NativeMacDialogs.NSAlertSecondButtonReturn)
  = (false, "before"%string).
Proof. reflexivity. Qed.

(* ===================================================================== *)
(** * Further properties of the code *)
(* ===================================================================== *)

(** ** The out-pointer and the menu built *)

Lemma loopBody_out_irrelevant bs target it nsMenu out1 out2 w :
  (loopBody bs target it nsMenu out1 w).1.1 = (loopBody bs target it nsMenu out2 w).1.1 /\
  (loopBody bs target it nsMenu out1 w).2 = (loopBody bs target it nsMenu out2 w).2.
Proof.
  unfold loopBody. destruct (isSeparator it).
  - by destruct (alloc w).
  - destruct (subMenu it) as [sub|].
    + destruct (bs sub (text it) w) as [subNs w1]. by destruct (alloc w1).
    + by destruct (alloc w).
Qed.

Lemma menuLoop_out_irrelevant bs target its :
  forall nsMenu out1 out2 w,
    (menuLoop bs target its nsMenu out1 w).1.1 = (menuLoop bs target its nsMenu out2 w).1.1 /\
    (menuLoop bs target its nsMenu out1 w).2 = (menuLoop bs target its nsMenu out2 w).2.
Proof.
  induction its as [|it rest IH]; intros nsMenu out1 out2 w; [done|].
  simpl.
  destruct (loopBody_out_irrelevant bs target it nsMenu out1 out2 w) as [Hm Hw].
  destruct (loopBody bs target it nsMenu out1 w) as [[nm1 o1] w1].
  destruct (loopBody bs target it nsMenu out2 w) as [[nm2 o2] w2].
  simpl in Hm, Hw. subst nm2 w2. apply IH.
Qed.

(** X1: the native menu a build returns, object addresses included, and
    the world it leaves do not depend on the out-pointer it is given;
    showPopupMenuAt and showPopupMenuAtFixed, started in the same world,
    therefore display the very same native menu. *)
Theorem built_menu_ignores_out_pointer
    (menu : PopupMenu) (target : ObjId) (out1 out2 : OutPtr) (title : string)
    (small : bool) (pos : JucePoint) (env : Env) (w : World) :
  (buildNSMenuFromJuceMenu menu target out1 title small w).1.1
  = (buildNSMenuFromJuceMenu menu target out2 title small w).1.1 /\
  (buildNSMenuFromJuceMenu menu target out1 title small w).2
  = (buildNSMenuFromJuceMenu menu target out2 title small w).2 /\
  exists nsMenu item1 loc1 loc2,
    appkitCalls (NativeMacPopupMenu.showPopupMenuAt menu pos small env w).2
    = appkitCalls w ++ [popUpMenuPositioningItem_atLocation nsMenu item1 loc1] /\
    appkitCalls (NativeMacPopupMenu.showPopupMenuAtFixed menu pos small env w).2
    = appkitCalls w ++ [popUpMenuPositioningItem_atLocation nsMenu None loc2].
Proof.
  assert (Hirr : forall tg o1 o2 t w0,
            (buildNSMenuFromJuceMenu menu tg o1 t small w0).1.1
            = (buildNSMenuFromJuceMenu menu tg o2 t small w0).1.1).
  { intros. rewrite !build_eq. apply menuLoop_out_irrelevant. }
  split; [apply Hirr|]. split; [by rewrite !build_world|].
  destruct (showPopupMenuAt_world menu pos small env w) as [-> _].
  destruct (showPopupMenuAtFixed_world menu pos small env w) as [-> _].
  do 4 eexists. split; [reflexivity|].
  unfold builtFor. by rewrite (Hirr _ None (Some None)).
Qed.

(** X2: a build never overwrites an item already recorded: handed a
    variable that holds an object, it returns it holding the same object,
    whatever items of the menu are ticked. *)
Theorem build_keeps_recorded_item
    (menu : PopupMenu) (target o : ObjId) (title : string) (small : bool) (w : World) :
  (buildNSMenuFromJuceMenu menu target (Some (Some o)) title small w).1.2
  = Some (Some o).
Proof.
  destruct (build_spec menu target (Some (Some o)) title small w) as (items & Heq & _).
  rewrite Heq. apply outAfter_set.
Qed.

(** ** Whole-tree properties of the menu built *)

Lemma everyMenu_eq p m :
  everyMenu p m
  = p m && forallb (fun it => match ns_submenu it with
                              | Some s => everyMenu p s
                              | None => true
                              end) (nm_items m).
Proof. destruct m; reflexivity. Qed.

Lemma everyItem_eq q m :
  everyItem q m
  = forallb (fun it => q it && match ns_submenu it with
                               | Some s => everyItem q s
                               | None => true
                               end) (nm_items m).
Proof. destruct m; reflexivity. Qed.

Lemma images_forallb target small (f : NSMenuItem -> bool) its items :
  Forall2 (itemImage (subBuilder target small) target) its items ->
  Forall (fun it => forall ns,
            itemImage (subBuilder target small) target it ns -> f ns = true) its ->
  forallb f items = true.
Proof.
  induction 1 as [|it ns its items Himg _ IH]; intros Hf; [done|].
  simpl. rewrite (Forall_inv Hf ns Himg). apply IH. by eapply Forall_inv_tail.
Qed.

Lemma build_title m target out title small w :
  nm_title (buildNSMenuFromJuceMenu m target out title small w).1.1 = title.
Proof.
  destruct (build_spec m target out title small w) as (items & Heq & _).
  by rewrite Heq.
Qed.

(** X3: every menu of the native tree a build returns, the root and the
    submenus at any depth, has item auto-enabling switched off and carries
    the small menu font exactly when useSmallSize is set; the root is
    titled menuTitle. *)
Theorem built_menus_are_configured (m : PopupMenu) :
  forall target out title small w,
    everyMenu (menuConfigured small)
      (buildNSMenuFromJuceMenu m target out title small w).1.1 = true /\
    nm_title (buildNSMenuFromJuceMenu m target out title small w).1.1 = title.
Proof.
  induction m as [its IH] using PopupMenu_tree_ind.
  intros target out title small w.
  destruct (build_spec (mkPopupMenu its) target out title small w)
    as (items & Heq & Himgs & _).
  rewrite Heq. cbn [fst]. split; [|reflexivity].
  rewrite everyMenu_eq. cbn [nm_items]. apply andb_true_intro. split.
  { unfold menuConfigured. cbn. by destruct small. }
  eapply images_forallb; [exact Himgs|]. simpl.
  eapply Forall_impl; [exact IH|]. simpl.
  intros it Hit ns Himg. unfold itemImage in Himg.
  destruct (isSeparator it); [by rewrite Himg|].
  destruct (subMenu it) as [sub|]; [|by rewrite Himg].
  destruct Himg as [w0 ->]. cbn [ns_submenu].
  rewrite subBuilder_fst. by apply Hit.
Qed.

(** X4: every item of the native tree a build returns, at any depth, is
    wired the same way: an item without submenu that is no separator sends
    menuItemSelected to the one target the build was given; separators and
    items holding a submenu have neither action nor target; and every
    submenu is titled after the item that holds it. *)
Theorem built_items_are_wired (m : PopupMenu) :
  forall target out title small w,
    everyItem (itemWired target)
      (buildNSMenuFromJuceMenu m target out title small w).1.1 = true.
Proof.
  induction m as [its IH] using PopupMenu_tree_ind.
  intros target out title small w.
  destruct (build_spec (mkPopupMenu its) target out title small w)
    as (items & Heq & Himgs & _).
  rewrite Heq. cbn [fst]. rewrite everyItem_eq. cbn [nm_items].
  eapply images_forallb; [exact Himgs|]. simpl.
  eapply Forall_impl; [exact IH|]. simpl.
  intros it Hit ns Himg. unfold itemImage in Himg.
  destruct (isSeparator it); [by rewrite Himg|].
  destruct (subMenu it) as [sub|].
  - destruct Himg as [w0 ->]. unfold itemWired. cbn.
    rewrite subBuilder_fst.
    rewrite build_title, String.eqb_refl. by apply Hit.
  - rewrite Himg. unfold itemWired. cbn. by rewrite Nat.eqb_refl.
Qed.

(** ** showPopupMenu *)

(** X5: the one display call of showPopupMenu.  With a parent component
    that has a native window handle it is a context-menu call on that view,
    with the application's current event or, when there is none, a
    synthetic left-mouse-down at the mouse location; a checked item plays
    no part.  Without a parent, or with one that has no window handle, the
    menu is positioned at the mouse location as read, neither flipped nor
    offset, on the native item of the first top-level ticked plain item if
    there is one. *)
Theorem showPopupMenu_display_call
    (menu : PopupMenu) (parent : option Component) (small : bool)
    (env : Env) (w : World) :
  exists nsMenu,
    appkitCalls (NativeMacPopupMenu.showPopupMenu menu parent small env w).2
    = appkitCalls w ++
      [match parent ≫= getWindowHandle with
       | Some view =>
           popUpContextMenu_withEvent_forView nsMenu
             (default (leftMouseDownEvent (mouseLocation env) (systemUptime env))
                      (currentEvent env))
             view
       | None =>
           popUpMenuPositioningItem_atLocation nsMenu
             (match list_find (fun it => tickedPlain it = true) (menuItems menu) with
              | Some (k, _) => ns_obj <$> nm_items nsMenu !! k
              | None => None
              end)
             (mouseLocation env)
       end].
Proof.
  destruct (showPopupMenu_world menu parent small env w) as [-> _].
  eexists. f_equal. f_equal.
  destruct (parent ≫= getWindowHandle) as [view|].
  - by destruct (currentEvent env).
  - f_equal.
    pose proof (build_checked menu (nextObj w) EmptyString small
                  (advance 1 (set_gSelectedMenuItemID 0 w))) as Hc.
    simpl in Hc. fold (builtFor menu small w (Some None)) in Hc.
    destruct (list_find _ (menuItems menu)) as [[k it]|].
    + destruct Hc as (ns & -> & -> & _). reflexivity.
    + by rewrite Hc.
Qed.

(** X6: a non-zero result always stands for a selection: when an entry
    point returns a value other than 0, the user selected an enabled item
    that is no separator and has no submenu, and the value is that item's
    itemID (itemID being a C++ int). *)
Theorem nonzero_result_is_a_selection
    (menu : PopupMenu) (parent : option Component) (pos : JucePoint)
    (small : bool) (env : Env) (w : World) (r : Z) :
  (forall it, userSelection menu (userAction env) = Some it ->
              in_int_range (itemID it)) ->
  r <> 0 ->
  r = (NativeMacPopupMenu.showPopupMenu menu parent small env w).1 \/
  r = (NativeMacPopupMenu.showPopupMenuAt menu pos small env w).1 \/
  r = (NativeMacPopupMenu.showPopupMenuAtFixed menu pos small env w).1 ->
  exists it,
    userSelection menu (userAction env) = Some it /\
    itemID it = r /\ selectable it = true.
Proof.
  intros Hrange Hr Hres.
  rewrite showPopupMenu_result, showPopupMenuAt_result,
    showPopupMenuAtFixed_result in Hres.
  assert (r = selectionResult menu (userAction env)) as -> by tauto.
  unfold selectionResult in *.
  destruct (userSelection menu (userAction env)) as [it|] eqn:Hsel; [|done].
  exists it. split; [done|]. split; [symmetry; by apply to_int_id, Hrange|].
  unfold userSelection in Hsel. destruct (userAction env) as [|path]; [done|].
  destruct (juceItemAtPath menu path) as [it'|]; [|done].
  destruct (selectable it') eqn:Hs; [|done]. by injection Hsel as <-.
Qed.

Lemma nonzero_result_is_a_selection_witness :
  let env := sampleEnv (Choose [3%nat]) in
  exists it,
    userSelection sampleMenu (userAction env) = Some it /\
    itemID it = 202 /\ selectable it = true.
Proof.
  intros env.
  apply (nonzero_result_is_a_selection sampleMenu None (mkJucePoint 0 0) false env
           sampleWorld 202).
  - intros it Hit. vm_compute in Hit. injection Hit as <-.
    unfold in_int_range, int_min, int_max. simpl. lia.
  - lia.
  - left. vm_compute. reflexivity.
Defined.

(** ** The text input dialog, further *)

(** X7: when the text input dialog ends on anything but its first button,
    showTextInputDialog returns false and outText keeps the content it had
    before the call, whatever the user typed and whatever the limit. *)
Theorem text_dialog_cancel_keeps_outText
    (toNSString : string -> NativeMacDialogs.NSString)
    (toJuceString : NativeMacDialogs.NSString -> string)
    (title message currentText : string) (maxLength : Z)
    (okButtonText cancelButtonText outText : string)
    (s : NativeMacDialogs.ModalSession) :
  NativeMacDialogs.response s <> NativeMacDialogs.NSAlertFirstButtonReturn ->
  NativeMacDialogs.showTextInputDialog toNSString toJuceString title message
    currentText maxLength okButtonText cancelButtonText outText s
  = (false, outText).
Proof.
  intros Hresp.
  unfold NativeMacDialogs.showTextInputDialog, NativeMacDialogs.runModal.
  by rewrite (proj2 (Z.eqb_neq _ _) Hresp).
Qed.

Lemma text_dialog_cancel_keeps_outText_witness :
  NativeMacDialogs.showTextInputDialog utf8_to_utf16 utf16_to_utf8
    "Rename Preset" "Enter new preset name:" "My Preset" 20 "Rename" "Cancel"
    "untouched"
    (NativeMacDialogs.mkSession [utf8_to_utf16 "My Preset 2"]
       NativeMacDialogs.NSAlertSecondButtonReturn)
  = (false, "untouched"%string).
Proof.
  apply (text_dialog_cancel_keeps_outText utf8_to_utf16 utf16_to_utf8
           "Rename Preset" "Enter new preset name:" "My Preset" 20 "Rename"
           "Cancel" "untouched").
  vm_compute. discriminate.
Defined.

Lemma last_cons_default (a : NativeMacDialogs.NSString) l d1 d2 :
  List.last (a :: l) d1 = List.last (a :: l) d2.
Proof.
  revert a. induction l as [|b l IH]; intros a; [done|].
  change (List.last (b :: l) d1 = List.last (b :: l) d2). apply IH.
Qed.

Lemma edits_without_observer es field :
  fold_left (NativeMacDialogs.userEdit None) es field = List.last es field.
Proof.
  revert field. induction es as [|e es IH]; intros field; [done|].
  simpl fold_left. rewrite IH. destruct es as [|a es]; [done|].
  change (List.last (e :: a :: es) field) with (List.last (a :: es) field).
  apply last_cons_default.
Qed.

(** X8: with maxLength zero or negative no limit is installed: an accepted
    dialog returns the text of the user's last edit exactly as the field
    holds it, or currentText (through the conversion to NSString and back)
    when there was no edit. *)
Theorem text_dialog_without_limit
    (toNSString : string -> NativeMacDialogs.NSString)
    (toJuceString : NativeMacDialogs.NSString -> string)
    (title message currentText : string) (maxLength : Z)
    (okButtonText cancelButtonText outText : string)
    (es : list NativeMacDialogs.NSString) :
  maxLength <= 0 ->
  NativeMacDialogs.showTextInputDialog toNSString toJuceString title message
    currentText maxLength okButtonText cancelButtonText outText
    (NativeMacDialogs.mkSession es NativeMacDialogs.NSAlertFirstButtonReturn)
  = (true, toJuceString (List.last es (toNSString currentText))).
Proof.
  intros Hmax.
  unfold NativeMacDialogs.showTextInputDialog, NativeMacDialogs.runModal.
  cbn [NativeMacDialogs.response NativeMacDialogs.edits].
  destruct (Z.gtb_spec maxLength 0) as [Hgt|_]; [lia|].
  by rewrite Z.eqb_refl, edits_without_observer.
Qed.

Lemma text_dialog_without_limit_witness :
  NativeMacDialogs.showTextInputDialog utf8_to_utf16 utf16_to_utf8
    "Search Presets" "Enter search terms to find presets:" EmptyString 0
    "Search" "Cancel" EmptyString
    (NativeMacDialogs.mkSession
       [utf8_to_utf16 "b"; utf8_to_utf16 "bass pad with a very long name"]
       NativeMacDialogs.NSAlertFirstButtonReturn)
  = (true, "bass pad with a very long name"%string).
Proof.
  apply (text_dialog_without_limit utf8_to_utf16 utf16_to_utf8 "Search Presets"
           "Enter search terms to find presets:" EmptyString 0 "Search" "Cancel"
           EmptyString
           [utf8_to_utf16 "b"; utf8_to_utf16 "bass pad with a very long name"]).
  lia.
Defined.

(** X9: with maxLength > 0, an accepted dialog that was edited returns the
    user's last edit cut to its first maxLength UTF-16 units, the unit of
    [text length] and substringToIndex: the field text handed back is a
    prefix of the last edit, of min (maxLength, length of the edit) units;
    earlier edits and currentText leave no trace. *)
Theorem text_dialog_cuts_last_edit
    (toNSString : string -> NativeMacDialogs.NSString)
    (toJuceString : NativeMacDialogs.NSString -> string)
    (title message currentText : string) (maxLength : Z)
    (okButtonText cancelButtonText outText : string)
    (es : list NativeMacDialogs.NSString) (e : NativeMacDialogs.NSString) :
  0 < maxLength ->
  exists field,
    NativeMacDialogs.showTextInputDialog toNSString toJuceString title message
      currentText maxLength okButtonText cancelButtonText outText
      (NativeMacDialogs.mkSession (es ++ [e]) NativeMacDialogs.NSAlertFirstButtonReturn)
    = (true, toJuceString field) /\
    field = take (Z.to_nat maxLength) e /\
    field `prefix_of` e /\
    length field = Nat.min (Z.to_nat maxLength) (length e).
Proof.
  intros Hpos. exists (take (Z.to_nat maxLength) e).
  split; [by apply accepted_after_edit|]. split; [done|]. split.
  - exists (drop (Z.to_nat maxLength) e). by rewrite take_drop.
  - apply length_take.
Qed.

Lemma text_dialog_cuts_last_edit_witness :
  exists field,
    NativeMacDialogs.showTextInputDialog utf8_to_utf16 utf16_to_utf8
      "Rename Preset" "Enter new preset name:" "My Preset" 5 "Rename" "Cancel"
      EmptyString
      (NativeMacDialogs.mkSession ([utf8_to_utf16 "My"] ++ [utf8_to_utf16 "Crème brûlée"])
         NativeMacDialogs.NSAlertFirstButtonReturn)
    = (true, utf16_to_utf8 field) /\
    field = take (Z.to_nat 5) (utf8_to_utf16 "Crème brûlée") /\
    field `prefix_of` utf8_to_utf16 "Crème brûlée" /\
    length field = Nat.min (Z.to_nat 5) (length (utf8_to_utf16 "Crème brûlée")).
Proof.
  apply (text_dialog_cuts_last_edit utf8_to_utf16 utf16_to_utf8
           "Rename Preset" "Enter new preset name:" "My Preset" 5 "Rename" "Cancel"
           EmptyString [utf8_to_utf16 "My"] (utf8_to_utf16 "Crème brûlée")).
  lia.
Defined.

Example cut_keeps_whole_characters :
  showTextInputDialog_utf8 "Rename Preset" "Enter new preset name:" "My Preset" 5
    "Rename" "Cancel" EmptyString
    (NativeMacDialogs.mkSession [utf8_to_utf16 "My"; utf8_to_utf16 "Crème brûlée"]
       NativeMacDialogs.NSAlertFirstButtonReturn)
  = (true, "Crème"%string).
Proof. reflexivity. Qed.

(** ** The confirmation dialog *)

Lemma restoreFocus_targets win env :
  Forall (fun b => match b with
                   | makeKeyAndOrderFront v _ => win = Some v /\ isVisible env v = true
                   end)
         (restoreFocus win env).
Proof.
  unfold restoreFocus. destruct win as [v|]; [|constructor].
  destruct (isVisible env v) eqn:Hv; repeat constructor; done.
Qed.

(** X10: showConfirmDialog shows button1Text and button2Text in this order
    and returns true exactly when the user ends the alert with the first of
    them.  The focus blocks it queues do not depend on the answer, and each
    names the window that was key before the alert and is still visible;
    none is queued otherwise. *)
Theorem showConfirmDialog_answer
    (title message button1Text button2Text : string) (env : DialogEnv) :
  let r := showConfirmDialog title message button1Text button2Text env in
  (r.1.1 = true <-> clickedButton env = 0%nat) /\
  alert_buttons r.1.2 = [button1Text; button2Text] /\
  (forall k, r.2 = (showConfirmDialog title message button1Text button2Text
                      (mkDialogEnv (keyWindow env) (isVisible env) k)).2) /\
  Forall (fun b => match b with
                   | makeKeyAndOrderFront v _ =>
                       keyWindow env = Some v /\ isVisible env v = true
                   end) r.2.
Proof.
  intros r. unfold r, showConfirmDialog, runAlertModal. cbn [fst snd].
  split; [|split; [reflexivity|split; [reflexivity|apply restoreFocus_targets]]].
  unfold NativeMacDialogs.NSAlertFirstButtonReturn. rewrite Z.eqb_eq. lia.
Qed.

(** ** The pasteboard, further *)

(** X11: copyDataToClipboard leaves exactly one type on the pasteboard:
    after it, fetching any other UTI returns false and leaves the block
    untouched, whatever the pasteboard held before the copy. *)
Theorem copy_leaves_only_its_type
    (data : list byte) (size : nat) (uti other : string)
    (pb : NativeMacPasteboard.NSPasteboard) (block : NativeMacPasteboard.MemoryBlock) :
  other <> uti ->
  NativeMacPasteboard.fetchDataFromClipboard block other
    (NativeMacPasteboard.copyDataToClipboard data size uti pb)
  = (false, block).
Proof.
  intros Hne.
  unfold NativeMacPasteboard.fetchDataFromClipboard,
    NativeMacPasteboard.copyDataToClipboard, NativeMacPasteboard.setData,
    NativeMacPasteboard.declareTypes, NativeMacPasteboard.dataForType.
  cbn [NativeMacPasteboard.pb_types NativeMacPasteboard.pb_data].
  rewrite bool_decide_eq_true_2 by apply list_elem_of_singleton, eq_refl.
  cbn [NativeMacPasteboard.pb_data].
  rewrite lookup_insert_ne by done. by rewrite lookup_empty.
Qed.

Lemma copy_leaves_only_its_type_witness :
  NativeMacPasteboard.fetchDataFromClipboard [x2a] "public.data"
    (NativeMacPasteboard.copyDataToClipboard sampleBytes 5 sampleUTI
       (NativeMacPasteboard.copyDataToClipboard [x10] 1 "public.data" emptyPasteboard))
  = (false, [x2a]).
Proof.
  apply (copy_leaves_only_its_type sampleBytes 5 sampleUTI "public.data").
  vm_compute. discriminate.
Defined.

Lemma held_data_can_be_read conformsTo uti pb d :
  (forall t, conformsTo t t = true) ->
  NativeMacPasteboard.dataForType uti pb = Some d ->
  clipboardContainsDataType conformsTo uti pb = true.
Proof.
  intros Hrefl Hd.
  unfold clipboardContainsDataType, canReadItemWithDataConformingToTypes.
  apply existsb_exists. exists (uti, d). split.
  - apply list_elem_of_In, elem_of_map_to_list. exact Hd.
  - simpl. by rewrite Hrefl.
Qed.

(** X12: whatever the system's conformance relation, as long as every type
    conforms to itself: clipboardContainsDataType answers true for a UTI
    whenever fetchDataFromClipboard would succeed for it, in particular
    right after copyDataToClipboard under that UTI; and it answers false
    for every UTI on a pasteboard that holds nothing. *)
Theorem clipboardContainsDataType_sound
    (conformsTo : string -> string -> bool) (uti : string)
    (pb : NativeMacPasteboard.NSPasteboard) (block : NativeMacPasteboard.MemoryBlock)
    (data : list byte) (size : nat) :
  (forall t, conformsTo t t = true) ->
  ((NativeMacPasteboard.fetchDataFromClipboard block uti pb).1 = true ->
   clipboardContainsDataType conformsTo uti pb = true) /\
  clipboardContainsDataType conformsTo uti
    (NativeMacPasteboard.copyDataToClipboard data size uti pb) = true /\
  clipboardContainsDataType conformsTo uti
    (NativeMacPasteboard.mkPasteboard (NativeMacPasteboard.pb_types pb) ∅) = false.
Proof.
  intros Hrefl. split; [|split].
  - unfold NativeMacPasteboard.fetchDataFromClipboard.
    destruct (NativeMacPasteboard.dataForType uti pb) as [d|] eqn:Hd; [|done].
    intros _. by eapply held_data_can_be_read.
  - eapply held_data_can_be_read; [done|apply copy_then_dataForType].
  - unfold clipboardContainsDataType, canReadItemWithDataConformingToTypes.
    cbn [NativeMacPasteboard.pb_data]. by rewrite map_to_list_empty.
Qed.

Lemma clipboardContainsDataType_sound_witness :
  clipboardContainsDataType String.eqb sampleUTI
    (NativeMacPasteboard.copyDataToClipboard sampleBytes 5 sampleUTI emptyPasteboard)
  = true.
Proof.
  apply (clipboardContainsDataType_sound String.eqb sampleUTI emptyPasteboard []
           sampleBytes 5).
  intros t. apply String.eqb_refl.
Defined.

(** X13: the paste example retrieves what was copied under the preset
    UTI: after copyDataToClipboard has put bytes on the pasteboard under
    com.yourcompany.yourapp.preset, whatever the pasteboard held before,
    examplePastePresetFromClipboard retrieves exactly those bytes and
    shows no error alert; after exampleCopyPresetToClipboard, which copies
    its own empty block, it retrieves the empty block (for any conformance
    relation in which every type conforms to itself). *)
Theorem example_copy_then_paste
    (conformsTo : string -> string -> bool)
    (data : list byte) (size : nat)
    (pb : NativeMacPasteboard.NSPasteboard) (env : DialogEnv) :
  (forall t, conformsTo t t = true) ->
  examplePastePresetFromClipboard conformsTo
    (NativeMacPasteboard.copyDataToClipboard data size
       "com.yourcompany.yourapp.preset" pb) env
  = PresetRetrieved (take size data) /\
  examplePastePresetFromClipboard conformsTo (exampleCopyPresetToClipboard pb) env
  = PresetRetrieved [].
Proof.
  intros Hrefl.
  assert (Hpaste : forall d n,
            examplePastePresetFromClipboard conformsTo
              (NativeMacPasteboard.copyDataToClipboard d n
                 "com.yourcompany.yourapp.preset" pb) env
            = PresetRetrieved (take n d)).
  { intros d n. unfold examplePastePresetFromClipboard.
    rewrite (held_data_can_be_read conformsTo _ _ (take n d))
      by (done || apply copy_then_dataForType).
    unfold NativeMacPasteboard.fetchDataFromClipboard.
    by rewrite copy_then_dataForType. }
  split; [apply Hpaste|].
  unfold exampleCopyPresetToClipboard. by rewrite Hpaste.
Qed.

Lemma example_copy_then_paste_witness :
  examplePastePresetFromClipboard String.eqb
    (NativeMacPasteboard.copyDataToClipboard sampleBytes 5
       "com.yourcompany.yourapp.preset" emptyPasteboard)
    (mkDialogEnv None (fun _ => true) 0)
  = PresetRetrieved (take 5 sampleBytes) /\
  examplePastePresetFromClipboard String.eqb
    (exampleCopyPresetToClipboard emptyPasteboard)
    (mkDialogEnv None (fun _ => true) 0)
  = PresetRetrieved [].
Proof.
  apply (example_copy_then_paste String.eqb sampleBytes 5 emptyPasteboard).
  intros t. apply String.eqb_refl.
Defined.

(** On a pasteboard without the preset type the example shows its alert. *)
Example example_paste_without_preset :
  examplePastePresetFromClipboard String.eqb
    (NativeMacPasteboard.copyDataToClipboard sampleBytes 5 "public.data" emptyPasteboard)
    (mkDialogEnv (Some 7%nat) (fun _ => true) 0)
  = PasteErrorShown
      (mkNSAlert "Paste Error" "No preset data found on clipboard."
         NSAlertStyleInformational ["OK"%string])
      [makeKeyAndOrderFront 7%nat 0; makeKeyAndOrderFront 7%nat 50000000].
Proof. vm_compute. reflexivity. Qed.

(** ** PresetMenuButton *)

Lemma foldl_addItem cur l :
  forall m,
    menuItems (foldl (fun menu i =>
                        PopupMenu_addItem i (String.append "Preset " (formatted03d i))
                          true (i =? cur) menu) m l)
    = menuItems m ++ map (presetItem cur) l.
Proof.
  induction l as [|i l IH]; intros m; simpl.
  - by rewrite app_nil_r.
  - rewrite IH. unfold PopupMenu_addItem. cbn [menuItems].
    by rewrite <- app_assoc.
Qed.

Lemma buildPresetList_items cur :
  menuItems (buildPresetList cur) = map (presetItem cur) (seqZ 1 presetCount).
Proof. unfold buildPresetList. by rewrite foldl_addItem. Qed.

Lemma buildPresetList_lookup cur k :
  menuItems (buildPresetList cur) !! k
  = if decide (Z.of_nat k < presetCount)
    then Some (presetItem cur (1 + Z.of_nat k))
    else None.
Proof.
  rewrite buildPresetList_items.
  change (map (presetItem cur) (seqZ 1 presetCount))
    with (presetItem cur <$> seqZ 1 presetCount).
  rewrite list_lookup_fmap. case_decide.
  - by rewrite lookup_seqZ_lt.
  - by rewrite lookup_seqZ_ge by lia.
Qed.

Lemma preset_selection cur u :
  selectionResult (buildPresetList cur) u = 0 \/
  exists k, u = Choose [k] /\ Z.of_nat k < presetCount /\
            selectionResult (buildPresetList cur) u = 1 + Z.of_nat k.
Proof.
  unfold selectionResult, userSelection.
  destruct u as [|[|k [|j rest]]]; try (by left); cbn [juceItemAtPath];
    rewrite buildPresetList_lookup; case_decide as Hk; try (by left).
  right. exists k. split; [done|]. split; [done|].
  unfold selectable, presetItem.
  cbn [isSeparator subMenu isEnabled itemID negb andb].
  apply to_int_id. unfold in_int_range, int_min, int_max, presetCount in *. lia.
Qed.

Lemma showPresetMenu_eq cur bounds env w :
  showPresetMenu cur bounds env w
  = let r := NativeMacPopupMenu.showPopupMenuAt (buildPresetList cur)
               (mkJucePoint (bounds_getX bounds) (bounds_getBottom bounds))
               false env w in
    (if r.1 >? 0 then r.1 else cur, r.2).
Proof.
  unfold showPresetMenu.
  destruct (NativeMacPopupMenu.showPopupMenuAt _ _ _ _ _) as [result w'].
  cbn [fst snd]. by destruct (result >? 0).
Qed.

Lemma showPresetMenu_world cur bounds env w :
  (showPresetMenu cur bounds env w).2
  = (NativeMacPopupMenu.showPopupMenuAt (buildPresetList cur)
       (mkJucePoint (bounds_getX bounds) (bounds_getBottom bounds)) false env w).2.
Proof.
  unfold showPresetMenu.
  destruct (NativeMacPopupMenu.showPopupMenuAt _ _ _ _ _) as [result w'].
  cbn [snd]. by destruct (result >? 0).
Qed.

(** X14: PresetMenuButton::showPresetMenu keeps currentPreset within
    1..128: started with a preset in that range it ends with one in that
    range, which is either the preset it started with or the preset whose
    row the user picked. *)
Theorem showPresetMenu_keeps_preset_in_range
    (currentPreset : Z) (bounds : ScreenBounds) (env : Env) (w : World) :
  1 <= currentPreset <= presetCount ->
  let after := (showPresetMenu currentPreset bounds env w).1 in
  1 <= after <= presetCount /\
  (after = currentPreset \/
   exists k, userAction env = Choose [k] /\ after = 1 + Z.of_nat k).
Proof.
  intros Hcur after. unfold after.
  rewrite showPresetMenu_eq. cbn [fst]. rewrite showPopupMenuAt_result.
  destruct (preset_selection currentPreset (userAction env))
    as [->|(k & Hu & Hk & ->)].
  - simpl. split; [done|by left].
  - destruct (Z.gtb_spec (1 + Z.of_nat k) 0) as [_|Hle]; [|lia].
    split; [lia|]. right. by exists k.
Qed.

Lemma showPresetMenu_keeps_preset_in_range_witness :
  let env := sampleEnv (Choose [41%nat]) in
  let after := (showPresetMenu 1 (mkScreenBounds 20 340) env sampleWorld).1 in
  1 <= after <= presetCount /\
  (after = 1 \/ exists k, userAction env = Choose [k] /\ after = 1 + Z.of_nat k).
Proof.
  apply (showPresetMenu_keeps_preset_in_range 1 (mkScreenBounds 20 340)
           (sampleEnv (Choose [41%nat])) sampleWorld).
  unfold presetCount. lia.
Defined.

Example showPresetMenu_runs :
  (showPresetMenu 1 (mkScreenBounds 20 340) (sampleEnv (Choose [41%nat])) sampleWorld).1
  = 42 /\
  (showPresetMenu 7 (mkScreenBounds 20 340) (sampleEnv Dismiss) sampleWorld).1 = 7 /\
  (showPresetMenu 7 (mkScreenBounds 20 340) (sampleEnv (Choose [128%nat])) sampleWorld).1
  = 7.
Proof. vm_compute. auto. Qed.

Lemma preset_list_find cur :
  1 <= cur <= presetCount ->
  list_find (fun it => tickedPlain it = true) (menuItems (buildPresetList cur))
  = Some (Z.to_nat (cur - 1), presetItem cur cur).
Proof.
  intros Hcur. apply list_find_Some. split; [|split].
  - rewrite buildPresetList_lookup. rewrite decide_True by lia.
    f_equal. f_equal. lia.
  - unfold tickedPlain, presetItem. cbn [isSeparator subMenu isTicked negb andb].
    apply Z.eqb_refl.
  - intros j it Hj Hlt. rewrite buildPresetList_lookup in Hj.
    case_decide; [|done]. injection Hj as <-.
    unfold tickedPlain, presetItem. cbn [isSeparator subMenu isTicked negb andb].
    rewrite (proj2 (Z.eqb_neq _ _)); [done|lia].
Qed.

Lemma showPopupMenuAt_on_ticked menu pos small env w k it :
  list_find (fun it => tickedPlain it = true) (menuItems menu) = Some (k, it) ->
  exists nsMenu ns,
    appkitCalls (NativeMacPopupMenu.showPopupMenuAt menu pos small env w).2
    = appkitCalls w ++
      [popUpMenuPositioningItem_atLocation nsMenu (Some (ns_obj ns))
         (NSMakePoint (CGFloat_of_int (getX pos))
            (PrimFloat.add
               (PrimFloat.sub (mainScreenHeight env) (CGFloat_of_int (getY pos)))
               10%float))] /\
    nm_items nsMenu !! k = Some ns /\
    itemImage (subBuilder (nextObj w) small) (nextObj w) it ns.
Proof.
  intros Hfind0.
  destruct (showPopupMenuAt_world menu pos small env w) as [-> _].
  unfold builtFor.
  destruct (build_spec menu (nextObj w) (Some None)
              EmptyString small (advance 1 (set_gSelectedMenuItemID 0 w)))
    as (items & Heq & Himgs & _).
  rewrite Heq. cbn [fst snd]. rewrite outAfter_empty.
  pose proof (firstTickedObj_find _ _ (Forall2_length _ _ _ Himgs)) as Hfind.
  rewrite Hfind0 in Hfind.
  destruct Hfind as (ns & Hk & ->). cbn [NativeMacPopupMenu.deref].
  eexists _, ns. split; [reflexivity|]. cbn [nm_items]. split; [exact Hk|].
  apply list_find_Some in Hfind0 as (Hit & _).
  destruct (Forall2_lookup_l _ _ _ _ _ Himgs Hit) as (ns' & Hk' & Himg).
  rewrite Hk in Hk'. by injection Hk' as <-.
Qed.

(** X15: PresetMenuButton::showPresetMenu, with currentPreset within
    1..128 and the bounds two C++ ints, positions the menu on the row of
    the current preset: the one display call names the native item at
    index currentPreset - 1, which carries currentPreset as tag and is
    checked and enabled; its location has for x a CGFloat denoting
    bounds.getX() and for y (screenHeight - b) + 10.0, where b is a
    CGFloat denoting bounds.getBottom(). *)
Theorem showPresetMenu_positions_on_current
    (currentPreset : Z) (bounds : ScreenBounds) (env : Env) (w : World) :
  1 <= currentPreset <= presetCount ->
  in_int_range (bounds_getX bounds) ->
  in_int_range (bounds_getBottom bounds) ->
  exists (x b : CGFloat) nsMenu ns,
    CGFloat_to_int x = Some (bounds_getX bounds) /\
    CGFloat_to_int b = Some (bounds_getBottom bounds) /\
    appkitCalls (showPresetMenu currentPreset bounds env w).2
    = appkitCalls w ++
      [popUpMenuPositioningItem_atLocation nsMenu (Some (ns_obj ns))
         (NSMakePoint x
            (PrimFloat.add (PrimFloat.sub (mainScreenHeight env) b) 10%float))] /\
    nm_items nsMenu !! Z.to_nat (currentPreset - 1) = Some ns /\
    ns_tag ns = currentPreset /\
    ns_state ns = NSControlStateValueOn /\
    ns_enabled ns = true.
Proof.
  intros Hcur Hx Hb.
  destruct (showPopupMenuAt_on_ticked (buildPresetList currentPreset)
              (mkJucePoint (bounds_getX bounds) (bounds_getBottom bounds))
              false env w _ _ (preset_list_find currentPreset Hcur))
    as (nsMenu & ns & Hcalls & Hk & Himg).
  exists (CGFloat_of_int (bounds_getX bounds)),
         (CGFloat_of_int (bounds_getBottom bounds)), nsMenu, ns.
  split; [by apply CGFloat_of_int_value|].
  split; [by apply CGFloat_of_int_value|].
  split; [|split; [exact Hk|]].
  - rewrite showPresetMenu_world. exact Hcalls.
  - unfold itemImage, presetItem in Himg.
    cbn [isSeparator subMenu isTicked isEnabled itemID text] in Himg.
    rewrite Z.eqb_refl in Himg. rewrite Himg.
    cbn [ns_tag ns_state ns_enabled]. repeat split.
Qed.

Lemma showPresetMenu_positions_on_current_witness :
  let bounds := mkScreenBounds 20 340 in
  let env := sampleEnv Dismiss in
  1 <= 25 <= presetCount /\
  in_int_range (bounds_getX bounds) /\ in_int_range (bounds_getBottom bounds) /\
  exists (x b : CGFloat) nsMenu ns,
    CGFloat_to_int x = Some (bounds_getX bounds) /\
    CGFloat_to_int b = Some (bounds_getBottom bounds) /\
    appkitCalls (showPresetMenu 25 bounds env sampleWorld).2
    = appkitCalls sampleWorld ++
      [popUpMenuPositioningItem_atLocation nsMenu (Some (ns_obj ns))
         (NSMakePoint x
            (PrimFloat.add (PrimFloat.sub (mainScreenHeight env) b) 10%float))] /\
    nm_items nsMenu !! Z.to_nat (25 - 1) = Some ns /\
    ns_tag ns = 25 /\
    ns_state ns = NSControlStateValueOn /\
    ns_enabled ns = true.
Proof.
  intros bounds env.
  assert (Hcur : 1 <= 25 <= presetCount) by (unfold presetCount; lia).
  assert (Hx : in_int_range (bounds_getX bounds))
    by (unfold in_int_range, int_min, int_max; simpl; lia).
  assert (Hb : in_int_range (bounds_getBottom bounds))
    by (unfold in_int_range, int_min, int_max; simpl; lia).
  split; [exact Hcur|]. split; [exact Hx|]. split; [exact Hb|].
  exact (showPresetMenu_positions_on_current 25 bounds env sampleWorld Hcur Hx Hb).
Defined.
